(** * HD44780U driver over I2C: the protocol and layout layers of [LCD.py]

    A shallow embedding of the class [LCD] of [src/LCD.py].  Python integers
    are [Z]; a Python [str] is the list of its code points; the object's
    attributes live in a record that every method threads through a small
    state-and-exception monad, together with the trace of what the method did
    to the outside world (I2C writes and microsecond delays). *)

From Stdlib Require Import ZArith Lia Bool String Ascii.
From stdpp Require Import base list.

Local Open Scope Z_scope.

(** ** Module-level constants of [LCD.py] *)

Definition LCD_CLEARDISPLAY : Z := 1.

Definition LCD_DISPLAYCONTROL : Z := Z.shiftl 1 3.
Definition LCD_DISPLAYON : Z := Z.shiftl 1 2.
Definition LCD_CURSORON : Z := Z.shiftl 1 1.
Definition LCD_BLINKON : Z := Z.shiftl 1 0.

Definition LCD_ENTRYMODESET : Z := Z.shiftl 1 2.
Definition LCD_ENTRYLEFT : Z := Z.shiftl 1 1.

Definition LCD_ENABLE_BIT : Z := Z.shiftl 1 2.
Definition LCD_BACKLIGHT : Z := Z.shiftl 1 3.

Definition LCD_COMMAND : Z := Z.shiftl 0 0.
Definition LCD_CHARACTER : Z := Z.shiftl 1 0.

Definition LCD_RETURNHOME : Z := Z.shiftl 1 1.

Definition LCD_SET_DDRAM : Z := Z.shiftl 1 7.

(** ** Python strings *)

(** A [str] is the sequence of its code points; [len] and [ord] are Python's. *)
Abbreviation str := (list Z).

Definition len {A} (l : list A) : Z := Z.of_nat (length l).

Definition ord (c : Z) : Z := c.

(** A string literal of the development, as a Python [str]. *)
Definition py (s : string) : str :=
  map (fun a => Z.of_nat (nat_of_ascii a)) (list_ascii_of_string s).

(** [s[:n]] and [s[n:]]; a negative [n] counts from the end. *)
Definition slice_to {A} (s : list A) (n : Z) : list A :=
  if 0 <=? n then take (Z.to_nat n) s
  else take (length s - Z.to_nat (- n))%nat s.

Definition slice_from {A} (s : list A) (n : Z) : list A :=
  if 0 <=? n then drop (Z.to_nat n) s
  else drop (length s - Z.to_nat (- n))%nat s.

(** ** Exceptions, effects and the method monad *)

(** The [raise LCDException(...)] sites of the module, one constructor each. *)
Inductive LCDException : Type :=
  | NoDeviceFound          (* 'Display could not be initialised - no i2c device found' *)
  | ByteOutOfBounds        (* 'byte for sending to i2c is out of bounds' *)
  | InvalidCursorRow (row : Z)     (* 'invalid row for cursor: ' + str(row) *)
  | InvalidCursorColumn (col : Z)  (* 'invalid column for cursor: ' + str(col) *)
  | SingleCharacterExpected        (* 'a single character is expected, got a string' *)
  | InvalidRow.                    (* 'invalid row for writing to display' *)

(** What a method does to the outside world. *)
Inductive event : Type :=
  | sleep_us (us : Z)                      (* time.sleep_us(us) *)
  | writeto (addr : Z) (data : list Z).    (* self.__i2c.writeto(addr, bytes(data)) *)

(** The attributes of an [LCD] object, and the effects performed through it
    so far, oldest first. *)
Record LCD : Type := mkLCD {
  __display_address : Z;
  __rows : Z;
  __cols : Z;
  __display_on : bool;
  __blink_on : bool;
  __cursor_on : bool;
  trace : list event
}.

(** The result of running a method: a value, a raised exception, or the
    loop bound of the model being hit (which the totality lemmas exclude). *)
Inductive outcome (A : Type) : Type :=
  | Ok (a : A)
  | Raise (e : LCDException)
  | OutOfFuel.
Arguments Ok {A} a.
Arguments Raise {A} e.
Arguments OutOfFuel {A}.

Definition M (A : Type) : Type := LCD -> outcome A * LCD.

Definition ret {A} (a : A) : M A := fun self => (Ok a, self).

Definition raise {A} (e : LCDException) : M A := fun self => (Raise e, self).

Definition bind {A B} (m : M A) (k : A -> M B) : M B :=
  fun self =>
    match m self with
    | (Ok a, self') => k a self'
    | (Raise e, self') => (Raise e, self')
    | (OutOfFuel, self') => (OutOfFuel, self')
    end.

Notation "x <- m ;; k" := (bind m (fun x => k))
  (at level 100, m at level 99, right associativity).
Notation "m ;; k" := (bind m (fun _ => k))
  (at level 100, right associativity).

(** Append effects to the trace. *)
Definition emit (es : list event) (self : LCD) : LCD :=
  mkLCD (__display_address self) (__rows self) (__cols self)
        (__display_on self) (__blink_on self) (__cursor_on self)
        (trace self ++ es).

Definition perform (e : event) : M unit := fun self => (Ok tt, emit [e] self).

(** The bytes written to the I2C bus, in order. *)
Fixpoint writes (es : list event) : list Z :=
  match es with
  | [] => []
  | sleep_us _ :: es' => writes es'
  | writeto _ data :: es' => data ++ writes es'
  end.

(** ** Protocol layer *)

(** [LCD.__write_i2c_byte]: the [type(byte) is not int] test cannot fail on
    a [Z]; the bus is taken to accept every write. *)
Definition __write_i2c_byte (byte : Z) : M unit := fun self =>
  if negb ((0 <=? byte) && (byte <=? 255)) then raise ByteOutOfBounds self
  else perform (writeto (__display_address self) [byte]) self.

(** [LCD.__toggle_enable] *)
Definition __toggle_enable (value : Z) : M unit :=
  perform (sleep_us 600) ;;
  __write_i2c_byte (Z.lor value LCD_ENABLE_BIT) ;;
  perform (sleep_us 600) ;;
  __write_i2c_byte (Z.land value (Z.lnot LCD_ENABLE_BIT)) ;;
  perform (sleep_us 600).

(** A [for x in l] loop over a list, as in [__send_byte] and [write_string]. *)
Fixpoint for_each {A} (l : list A) (body : A -> M unit) : M unit :=
  match l with
  | [] => ret tt
  | x :: l' => body x ;; for_each l' body
  end.

(** [LCD.__send_byte] *)
Definition __send_byte (byte mode : Z) : M unit :=
  let first := Z.lor (Z.lor mode (Z.land byte 0xf0)) (Z.shiftl 1 3) in
  let second := Z.lor (Z.lor mode (Z.land (Z.shiftl byte 4) 0xf0)) (Z.shiftl 1 3) in
  for_each [first; second] (fun byte =>
    __write_i2c_byte byte ;;
    __toggle_enable byte).

(** [LCD.__update_display_control] *)
Definition __update_display_control : M unit := fun self =>
  let display_control := LCD_DISPLAYCONTROL in
  let display_control :=
    if __display_on self then Z.lor display_control LCD_DISPLAYON else display_control in
  let display_control :=
    if __blink_on self then Z.lor display_control LCD_BLINKON else display_control in
  let display_control :=
    if __cursor_on self then Z.lor display_control LCD_CURSORON else display_control in
  __send_byte display_control LCD_COMMAND self.

(** Assignments to the three flags. *)
Definition set_display_on (value : bool) (self : LCD) : LCD :=
  mkLCD (__display_address self) (__rows self) (__cols self)
        value (__blink_on self) (__cursor_on self) (trace self).

Definition set_blink_on (value : bool) (self : LCD) : LCD :=
  mkLCD (__display_address self) (__rows self) (__cols self)
        (__display_on self) value (__cursor_on self) (trace self).

Definition set_cursor_on (value : bool) (self : LCD) : LCD :=
  mkLCD (__display_address self) (__rows self) (__cols self)
        (__display_on self) (__blink_on self) value (trace self).

Definition modify (f : LCD -> LCD) : M unit := fun self => (Ok tt, f self).

(** [LCD.__init__]: [scan] is what [self.__i2c.scan()] answers.  The object
    starts with its three flags unset (read by nothing before they are
    assigned; [false] stands for unset). *)
Definition __init__ (scan : list Z) (display_address : option Z) (rows cols : Z)
  : outcome unit * option LCD :=
  let address :=
    match display_address with
    | None => match scan with
              | [] => None
              | device :: _ => Some device
              end
    | Some a => Some a
    end in
  match address with
  | None => (Raise NoDeviceFound, None)
  | Some a =>
      let self := mkLCD a rows cols false false false [] in
      let '(r, self') :=
        (__send_byte 0x03 LCD_COMMAND ;;
         __send_byte 0x03 LCD_COMMAND ;;
         __send_byte 0x03 LCD_COMMAND ;;
         __send_byte 0x02 LCD_COMMAND ;;
         __send_byte (Z.lor LCD_ENTRYMODESET LCD_ENTRYLEFT) LCD_COMMAND ;;
         modify (set_display_on true) ;;
         modify (set_blink_on false) ;;
         modify (set_cursor_on false) ;;
         __update_display_control ;;
         __send_byte LCD_CLEARDISPLAY LCD_COMMAND) self in
      (r, Some self')
  end.

(** [LCD.set_cursor] *)
Definition row_offsets : list Z := [0x00; 0x40; 0x14; 0x54].

Definition set_cursor (row col : Z) : M unit := fun self =>
  if negb ((0 <=? row) && (row <? len row_offsets))
  then raise (InvalidCursorRow row) self
  else if negb ((0 <=? col) && (col <? __cols self))
  then raise (InvalidCursorColumn col) self
  else
    (* [row_offsets[row]]: the guard above keeps the index in range *)
    let value := Z.lor LCD_SET_DDRAM col + default 0 (row_offsets !! Z.to_nat row) in
    __send_byte value LCD_COMMAND self.

(** [LCD.clear], [LCD.return_home] *)
Definition clear : M unit := __send_byte LCD_CLEARDISPLAY LCD_COMMAND.

Definition return_home : M unit := __send_byte LCD_RETURNHOME LCD_COMMAND.

(** [LCD.display_on], [LCD.blink_on], [LCD.cursor_on] and their [_off] twins *)
Definition display_on (value : bool) : M unit := fun self =>
  let self := set_display_on value self in
  __update_display_control self.

Definition blink_on (value : bool) : M unit := fun self =>
  let self := set_blink_on value self in
  let self := if __blink_on self then set_cursor_on true self else self in
  __update_display_control self.

Definition cursor_on (value : bool) : M unit := fun self =>
  let self := set_cursor_on value self in
  __update_display_control self.

Definition display_off : M unit := display_on false.

Definition cursor_off : M unit := cursor_on false.

Definition blink_off : M unit := blink_on false.

(** An integer is a byte when it is its own low eight bits. *)
Definition is_byte (x : Z) : Prop := Z.land x 255 = x.

(** ** What each protocol operation leaves on the trace

    Closed forms of the effects of the operations above, used to state what
    the layout layer sends. *)

(** One nibble frame: the frame itself, then the enable pulse around it. *)
Definition frame_trace (addr value : Z) : list event :=
  [writeto addr [value];
   sleep_us 600; writeto addr [Z.lor value LCD_ENABLE_BIT];
   sleep_us 600; writeto addr [Z.land value (Z.lnot LCD_ENABLE_BIT)];
   sleep_us 600].

Definition send_byte_trace (addr byte mode : Z) : list event :=
  frame_trace addr (Z.lor (Z.lor mode (Z.land byte 0xf0)) (Z.shiftl 1 3)) ++
  frame_trace addr (Z.lor (Z.lor mode (Z.land (Z.shiftl byte 4) 0xf0)) (Z.shiftl 1 3)).

(** The DDRAM offset of a row, as [row_offsets] lists them. *)
Definition ddram_offset (row : Z) : Z :=
  if row =? 0 then 0x00 else if row =? 1 then 0x40
  else if row =? 2 then 0x14 else 0x54.

Definition set_cursor_trace (addr row col : Z) : list event :=
  send_byte_trace addr (Z.lor LCD_SET_DDRAM col + ddram_offset row) LCD_COMMAND.

Definition write_string_trace (addr : Z) (s : str) : list event :=
  flat_map (fun c => send_byte_trace addr c LCD_CHARACTER) s.

(** ** Layout layer *)

(** [LCD.write_character]: [character] is a [str], so only the test on its
    length remains. *)
Definition write_character (character : str) : M unit :=
  match character with
  | [c] => __send_byte (ord c) LCD_CHARACTER
  | _ => raise SingleCharacterExpected
  end.

(** [LCD.write_string]: [for character in string] hands over one-character
    strings. *)
Definition write_string (string : str) : M unit :=
  for_each string (fun character => write_character [character]).

Section Layout.

(** Which code points [str.split()] and [str.rstrip()] treat as whitespace is
    the interpreter's business; the space character is among them. *)
Variable isspace : Z -> bool.

(** [str.split()]: the maximal runs of non-whitespace, in order; [word] is
    the run being read. *)
Fixpoint split_words (word : str) (s : str) : list str :=
  match s with
  | [] => match word with [] => [] | _ => [word] end
  | c :: s' =>
      if isspace c
      then match word with
           | [] => split_words [] s'
           | _ => word :: split_words [] s'
           end
      else split_words (word ++ [c]) s'
  end.

Definition split (s : str) : list str := split_words [] s.

(** [str.rstrip()]: drop the trailing whitespace. *)
Fixpoint rstrip (s : str) : str :=
  match s with
  | [] => []
  | c :: s' =>
      match rstrip s' with
      | [] => if isspace c then [] else [c]
      | t => c :: t
      end
  end.

(** The inner [while] of [LCD.write]: append words to [current_line] while
    [words_idx < len(words)] and the next word fits.  It runs at most once
    per word, which bounds [fuel]. *)
Fixpoint pack_loop (fuel : nat) (cols : Z) (words : list str) (words_idx : nat)
    (current_line : str) : option (nat * str) :=
  match words !! words_idx with
  | Some w =>
      if len current_line + len w <=? cols
      then match fuel with
           | O => None
           | S fuel' =>
               pack_loop fuel' cols words (S words_idx) ((current_line ++ w) ++ py " ")
           end
      else Some (words_idx, current_line)
  | None => Some (words_idx, current_line)
  end.

(** The outer [while row < self.__rows] of [LCD.write]; [words[words_idx]] is
    overwritten in place when a word is split. *)
Fixpoint write_loop (fuel : nat) (words : list str) (words_idx : nat) (row : Z)
  : M Z := fun self =>
  if row <? __rows self then
    match fuel with
    | O => (OutOfFuel, self)
    | S fuel' =>
        match pack_loop (length words) (__cols self) words words_idx [] with
        | None => (OutOfFuel, self)
        | Some (words_idx, current_line) =>
            (set_cursor row 0 ;;
             if 0 <? len current_line then
               write_string (rstrip current_line) ;;
               write_loop fuel' words words_idx (row + 1)
             else if (words_idx <? length words)%nat then
               (fun self =>
                  let w := default [] (words !! words_idx) in
                  (write_string (slice_to w (__cols self)) ;;
                   write_loop fuel'
                     (<[words_idx := slice_from w (__cols self)]> words)
                     words_idx (row + 1)) self)
             else ret row) self
        end
    end
  else ret row self.

(** [LCD.write]: the outer loop runs at most once per row from [row] on,
    which bounds its fuel. *)
Definition write (string : str) (row : Z) : M Z := fun self =>
  let words := split string in
  let words_idx := 0%nat in
  write_loop (Z.to_nat (__rows self - row)) words words_idx row self.

(** [LCD.write_center], [LCD.write_left], [LCD.write_right] *)
Definition write_center (string : str) (row : Z) : M unit := fun self =>
  if negb ((0 <=? row) && (row <? __rows self)) then raise InvalidRow self
  else
    let length := len string in
    (set_cursor row ((__cols self - length) / 2) ;;
     write_string string) self.

Definition write_left (string : str) (row : Z) : M unit := fun self =>
  if negb ((0 <=? row) && (row <? __rows self)) then raise InvalidRow self
  else (set_cursor row 0 ;; write_string string) self.

Definition write_right (string : str) (row : Z) : M unit := fun self =>
  if negb ((0 <=? row) && (row <? __rows self)) then raise InvalidRow self
  else (set_cursor row (__cols self - len string) ;; write_string string) self.

(** ** The render plan of [write], on a queue of words

    The word wrap as the specification words it: for each row while rows
    remain, pack words greedily, write the trimmed line; a word that cannot
    fit an empty line is cut at [cols]; stop when the words are used up. *)

(** Greedy packing: take words while the line (with the space that follows
    each word) plus the next word stays within [cols]. *)
Fixpoint pack (cols : Z) (line : str) (ws : list str) : str * list str :=
  match ws with
  | [] => (line, [])
  | w :: ws' =>
      if len line + len w <=? cols
      then pack cols ((line ++ w) ++ py " ") ws'
      else (line, ws)
  end.

Record plan : Type := mkPlan {
  lines : list (Z * str);    (* the rows written, with their text *)
  parked : bool;             (* a last cursor-set on the returned row *)
  next_row : Z;              (* the value returned *)
  dropped : list str         (* the words left when the rows ran out *)
}.

Definition add_line (l : Z * str) (p : plan) : plan :=
  mkPlan (l :: lines p) (parked p) (next_row p) (dropped p).

Fixpoint layout (cols : Z) (rows_left : nat) (row : Z) (ws : list str) : plan :=
  match rows_left with
  | O => mkPlan [] false row ws
  | S n =>
      match pack cols [] ws with
      | ([], []) => mkPlan [] true row []
      | ([], w :: rest) =>
          add_line (row, take (Z.to_nat cols) w)
                   (layout cols n (row + 1) (drop (Z.to_nat cols) w :: rest))
      | (line, rest) =>
          add_line (row, rstrip line) (layout cols n (row + 1) rest)
      end
  end.

Definition write_plan (cols rows : Z) (text : str) (start_row : Z) : plan :=
  layout cols (Z.to_nat (rows - start_row)) start_row (split text).

(** What a plan puts on the trace. *)
Definition render_lines (addr : Z) (ls : list (Z * str)) : list event :=
  flat_map (fun l => set_cursor_trace addr (fst l) 0 ++ write_string_trace addr (snd l)) ls.

Definition render (addr : Z) (p : plan) : list event :=
  render_lines addr (lines p) ++
  (if parked p then set_cursor_trace addr (next_row p) 0 else []).

(** Words joined by single spaces. *)
Fixpoint join (ws : list str) : str :=
  match ws with
  | [] => []
  | [w] => w
  | w :: ws' => w ++ py " " ++ join ws'
  end.

End Layout.

(** The whitespace of MicroPython's [str.split] and [str.rstrip]: the ASCII
    control characters 9 to 13 and the space. *)
Definition isspace_ascii (c : Z) : bool :=
  ((9 <=? c) && (c <=? 13)) || (c =? 32).

(** The display of [example.py]: four rows of twenty columns, here at bus
    address 0x27, display on, with an empty trace. *)
Definition example_display : LCD := mkLCD 0x27 4 20 true false false [].

(** ** Observations on traces and states, for the properties below *)

(** The time spent in [time.sleep_us], in microseconds. *)
Fixpoint delays (es : list event) : Z :=
  match es with
  | [] => 0
  | sleep_us us :: es' => us + delays es'
  | writeto _ _ :: es' => delays es'
  end.

(** A byte as the expander may see it: within 0..255, backlight (bit 3) on,
    R/W (bit 1) low. *)
Definition good_frame (w : Z) : Prop :=
  0 <= w <= 255 /\ Z.testbit w 3 = true /\ Z.testbit w 1 = false.

(** [self'] is [self] after some whole bytes were sent: nothing but the
    trace differs, and the trace grew by good frames, six bus writes per
    byte. *)
Definition bus_ok (self self' : LCD) : Prop :=
  exists es n,
    self' = emit es self
    /\ Forall good_frame (writes es)
    /\ length (writes es) = (6 * n)%nat.

(** The display-control command the three flags stand for. *)
Definition control_byte (self : LCD) : Z :=
  8 + 4 * Z.b2z (__display_on self) + 2 * Z.b2z (__cursor_on self)
  + Z.b2z (__blink_on self).

(** A string without its whitespace. *)
Definition strip_spaces (isspace : Z -> bool) (s : str) : str :=
  List.filter (fun c => negb (isspace c)) s.

(** * Properties *)

(** ** The monad and the trace *)

Lemma bind_ok {A B} (m : M A) (k : A -> M B) self a self' :
  m self = (Ok a, self') -> bind m k self = k a self'.
Proof. intros H. unfold bind. now rewrite H. Qed.

Lemma bind_raise {A B} (m : M A) (k : A -> M B) self e self' :
  m self = (Raise e, self') -> bind m k self = (Raise e, self').
Proof. intros H. unfold bind. now rewrite H. Qed.

Lemma emit_nil self : emit [] self = self.
Proof. destruct self. unfold emit. cbn. now rewrite app_nil_r. Qed.

Lemma emit_emit es1 es2 self : emit es2 (emit es1 self) = emit (es1 ++ es2) self.
Proof. unfold emit. cbn. now rewrite app_assoc. Qed.

Lemma writes_app es1 es2 : writes (es1 ++ es2) = writes es1 ++ writes es2.
Proof.
  induction es1 as [|[us|addr data] es1 IH]; cbn; [reflexivity|assumption|].
  now rewrite IH, app_assoc.
Qed.

(** ** Bytes: an integer is a byte when it is its own low eight bits *)

Lemma is_byte_range x : is_byte x -> 0 <= x <= 255.
Proof.
  unfold is_byte. intros H. change 255 with (Z.ones 8) in H.
  rewrite Z.land_ones in H by lia. rewrite <- H.
  pose proof (Z.mod_pos_bound x (2 ^ 8)). lia.
Qed.

Lemma is_byte_lor x y : is_byte x -> is_byte y -> is_byte (Z.lor x y).
Proof. unfold is_byte. intros Hx Hy. now rewrite Z.land_lor_distr_l, Hx, Hy. Qed.

Lemma is_byte_land_l x m : is_byte x -> is_byte (Z.land x m).
Proof.
  unfold is_byte. intros Hx.
  now rewrite <- Z.land_assoc, (Z.land_comm m), Z.land_assoc, Hx.
Qed.

Lemma is_byte_land_r x m : is_byte m -> is_byte (Z.land x m).
Proof. unfold is_byte. intros Hm. now rewrite <- Z.land_assoc, Hm. Qed.

Lemma is_byte_mode mode :
  mode = LCD_COMMAND \/ mode = LCD_CHARACTER -> is_byte mode.
Proof. intros [-> | ->]; reflexivity. Qed.

Create HintDb bytes.
#[local] Hint Resolve is_byte_lor is_byte_land_l is_byte_land_r is_byte_mode : bytes.
#[local] Hint Extern 1 (is_byte _) => reflexivity : bytes.

Lemma is_byte_first byte mode :
  mode = LCD_COMMAND \/ mode = LCD_CHARACTER ->
  is_byte (Z.lor (Z.lor mode (Z.land byte 0xf0)) (Z.shiftl 1 3)).
Proof. intros Hm. apply is_byte_lor; [apply is_byte_lor|]; auto with bytes. Qed.

Lemma is_byte_second byte mode :
  mode = LCD_COMMAND \/ mode = LCD_CHARACTER ->
  is_byte (Z.lor (Z.lor mode (Z.land (Z.shiftl byte 4) 0xf0)) (Z.shiftl 1 3)).
Proof. intros Hm. apply is_byte_lor; [apply is_byte_lor|]; auto with bytes. Qed.

(** ** Running the protocol operations *)

Lemma write_i2c_byte_run byte self :
  is_byte byte ->
  __write_i2c_byte byte self = (Ok tt, emit [writeto (__display_address self) [byte]] self).
Proof.
  intros H%is_byte_range. unfold __write_i2c_byte.
  replace (0 <=? byte) with true by (symmetry; apply Z.leb_le; lia).
  replace (byte <=? 255) with true by (symmetry; apply Z.leb_le; lia).
  reflexivity.
Qed.

Lemma write_i2c_byte_out_of_range byte self :
  byte < 0 \/ 255 < byte ->
  __write_i2c_byte byte self = (Raise ByteOutOfBounds, self).
Proof.
  intros H. unfold __write_i2c_byte.
  destruct (0 <=? byte) eqn:E1, (byte <=? 255) eqn:E2; try reflexivity.
  apply Z.leb_le in E1, E2. lia.
Qed.

Lemma toggle_enable_run value self :
  is_byte value ->
  __toggle_enable value self =
  (Ok tt, emit [sleep_us 600; writeto (__display_address self) [Z.lor value LCD_ENABLE_BIT];
                sleep_us 600;
                writeto (__display_address self) [Z.land value (Z.lnot LCD_ENABLE_BIT)];
                sleep_us 600] self).
Proof.
  intros Hv. unfold __toggle_enable, perform.
  erewrite bind_ok by reflexivity.
  erewrite bind_ok by (apply write_i2c_byte_run; auto with bytes).
  erewrite bind_ok by reflexivity.
  erewrite bind_ok by (apply write_i2c_byte_run; auto with bytes).
  rewrite !emit_emit. reflexivity.
Qed.

Lemma frame_run value self :
  is_byte value ->
  (__write_i2c_byte value ;; __toggle_enable value) self =
  (Ok tt, emit (frame_trace (__display_address self) value) self).
Proof.
  intros Hv.
  erewrite bind_ok by (apply write_i2c_byte_run; assumption).
  rewrite toggle_enable_run by assumption.
  rewrite emit_emit. reflexivity.
Qed.

Lemma send_byte_run byte mode self :
  mode = LCD_COMMAND \/ mode = LCD_CHARACTER ->
  __send_byte byte mode self =
  (Ok tt, emit (send_byte_trace (__display_address self) byte mode) self).
Proof.
  intros Hm. unfold __send_byte, for_each.
  erewrite bind_ok by (apply frame_run, is_byte_first; assumption).
  erewrite bind_ok by (apply frame_run, is_byte_second; assumption).
  unfold ret. rewrite emit_emit. reflexivity.
Qed.

(** ** The bits of a frame *)

Section Frame.

Variables (x mode : Z).
Hypothesis mode_ok : mode = LCD_COMMAND \/ mode = LCD_CHARACTER.

(** The frame [__send_byte] builds around the nibble [x & 0xf0]. *)
Local Abbreviation frame := (Z.lor (Z.lor mode (Z.land x 0xf0)) (Z.shiftl 1 3)).

Lemma frame_backlight : Z.testbit frame 3 = true.
Proof. rewrite Z.lor_spec. apply orb_true_r. Qed.

Lemma frame_rs : Z.testbit frame 0 = Z.testbit mode 0.
Proof.
  rewrite !Z.lor_spec, Z.land_spec.
  change (Z.testbit 240 0) with false. change (Z.testbit (Z.shiftl 1 3) 0) with false.
  now rewrite andb_false_r, !orb_false_r.
Qed.

Lemma frame_enable : Z.testbit frame 2 = false.
Proof.
  rewrite !Z.lor_spec, Z.land_spec.
  change (Z.testbit 240 2) with false. change (Z.testbit (Z.shiftl 1 3) 2) with false.
  rewrite andb_false_r, !orb_false_r. now destruct mode_ok as [-> | ->].
Qed.

Lemma frame_nibble : Z.land frame 0xf0 = Z.land x 0xf0.
Proof.
  rewrite !Z.land_lor_distr_l, <- Z.land_assoc.
  change (Z.land 240 240) with 240. change (Z.land (Z.shiftl 1 3) 240) with 0.
  rewrite Z.lor_0_r. now destruct mode_ok as [-> | ->].
Qed.

Lemma frame_enable_off : Z.land frame (Z.lnot LCD_ENABLE_BIT) = frame.
Proof.
  rewrite !Z.land_lor_distr_l, <- Z.land_assoc.
  change (Z.land 240 (Z.lnot LCD_ENABLE_BIT)) with 240.
  now destruct mode_ok as [-> | ->].
Qed.

Lemma frame_pulse_backlight : Z.testbit (Z.lor frame LCD_ENABLE_BIT) 3 = true.
Proof. now rewrite Z.lor_spec, frame_backlight. Qed.

Lemma frame_pulse_rs : Z.testbit (Z.lor frame LCD_ENABLE_BIT) 0 = Z.testbit mode 0.
Proof. rewrite Z.lor_spec, frame_rs. apply orb_false_r. Qed.

Lemma frame_pulse_enable : Z.testbit (Z.lor frame LCD_ENABLE_BIT) 2 = true.
Proof. rewrite Z.lor_spec. apply orb_true_r. Qed.

Lemma frame_pulse_nibble : Z.land (Z.lor frame LCD_ENABLE_BIT) 0xf0 = Z.land x 0xf0.
Proof. rewrite Z.land_lor_distr_l, frame_nibble. apply Z.lor_0_r. Qed.

Lemma frame_writes addr :
  writes (frame_trace addr frame) = [frame; Z.lor frame LCD_ENABLE_BIT; frame].
Proof. unfold frame_trace. cbn [writes app]. now rewrite frame_enable_off. Qed.

End Frame.

Lemma low_nibble_shifted value :
  Z.land (Z.shiftl value 4) 0xf0 = Z.shiftl (Z.land value 0x0f) 4.
Proof. now rewrite Z.shiftl_land. Qed.

Lemma send_byte_writes addr value mode :
  mode = LCD_COMMAND \/ mode = LCD_CHARACTER ->
  writes (send_byte_trace addr value mode) =
  let first := Z.lor (Z.lor mode (Z.land value 0xf0)) (Z.shiftl 1 3) in
  let second := Z.lor (Z.lor mode (Z.land (Z.shiftl value 4) 0xf0)) (Z.shiftl 1 3) in
  [first; Z.lor first LCD_ENABLE_BIT; first;
   second; Z.lor second LCD_ENABLE_BIT; second].
Proof.
  intros Hm. unfold send_byte_trace.
  now rewrite writes_app, !frame_writes by assumption.
Qed.

(** The frames depend on the low eight bits of the value only. *)
Lemma send_byte_trace_mod addr value mode :
  send_byte_trace addr value mode = send_byte_trace addr (value mod 256) mode.
Proof.
  assert (H1 : Z.land (value mod 256) 0xf0 = Z.land value 0xf0).
  { change 256 with (2 ^ 8). rewrite <- Z.land_ones by lia.
    now rewrite <- Z.land_assoc. }
  assert (H2 : Z.land (Z.shiftl (value mod 256) 4) 0xf0 = Z.land (Z.shiftl value 4) 0xf0).
  { rewrite !low_nibble_shifted. f_equal.
    change 256 with (2 ^ 8). rewrite <- Z.land_ones by lia.
    now rewrite <- Z.land_assoc. }
  unfold send_byte_trace. now rewrite H1, H2.
Qed.

(** ** Cursor addressing and character output *)

Lemma row_offsets_lookup row :
  0 <= row < 4 -> default 0 (row_offsets !! Z.to_nat row) = ddram_offset row.
Proof.
  intros H.
  assert (E : row = 0 \/ row = 1 \/ row = 2 \/ row = 3) by lia.
  destruct E as [-> | [-> | [-> | ->]]]; reflexivity.
Qed.

Lemma set_cursor_run row col self :
  0 <= row < 4 -> 0 <= col < __cols self ->
  set_cursor row col self =
  (Ok tt, emit (set_cursor_trace (__display_address self) row col) self).
Proof.
  intros Hr Hc. unfold set_cursor.
  replace (0 <=? row) with true by (symmetry; apply Z.leb_le; lia).
  change (len row_offsets) with 4.
  replace (row <? 4) with true by (symmetry; apply Z.ltb_lt; lia).
  replace (0 <=? col) with true by (symmetry; apply Z.leb_le; lia).
  replace (col <? __cols self) with true by (symmetry; apply Z.ltb_lt; lia).
  cbn [andb negb]. rewrite row_offsets_lookup by assumption.
  apply send_byte_run. now left.
Qed.

Lemma set_cursor_bad_row row col self :
  ~ 0 <= row < 4 ->
  set_cursor row col self = (Raise (InvalidCursorRow row), self).
Proof.
  intros Hr. unfold set_cursor.
  change (len row_offsets) with 4.
  destruct (0 <=? row) eqn:E1, (row <? 4) eqn:E2; try reflexivity.
  apply Z.leb_le in E1. apply Z.ltb_lt in E2. lia.
Qed.

Lemma set_cursor_bad_col row col self :
  0 <= row < 4 -> ~ 0 <= col < __cols self ->
  set_cursor row col self = (Raise (InvalidCursorColumn col), self).
Proof.
  intros Hr Hc. unfold set_cursor.
  replace (0 <=? row) with true by (symmetry; apply Z.leb_le; lia).
  change (len row_offsets) with 4.
  replace (row <? 4) with true by (symmetry; apply Z.ltb_lt; lia).
  cbn [andb negb].
  destruct (0 <=? col) eqn:E1, (col <? __cols self) eqn:E2; try reflexivity.
  apply Z.leb_le in E1. apply Z.ltb_lt in E2. lia.
Qed.

Lemma write_string_run s self :
  write_string s self =
  (Ok tt, emit (write_string_trace (__display_address self) s) self).
Proof.
  unfold write_string. revert self.
  induction s as [|c s IH]; intros self; cbn [for_each write_string_trace flat_map].
  - unfold ret. now rewrite emit_nil.
  - unfold write_character at 1.
    erewrite bind_ok by (apply send_byte_run; now right).
    rewrite IH, emit_emit. reflexivity.
Qed.

(** ** The word wrap *)

Lemma rows_emit es self : __rows (emit es self) = __rows self.
Proof. reflexivity. Qed.

Lemma cols_emit es self : __cols (emit es self) = __cols self.
Proof. reflexivity. Qed.

Lemma address_emit es self : __display_address (emit es self) = __display_address self.
Proof. reflexivity. Qed.

Lemma drop_insert_here {A} (l : list A) i x y :
  l !! i = Some y -> drop i (<[i := x]> l) = x :: drop (S i) l.
Proof.
  revert i. induction l as [|a l IH]; intros [|i] H; try discriminate.
  - cbn. now rewrite drop_0.
  - cbn in *. now apply IH.
Qed.

(** The inner loop, on the words from [words_idx] on, is the greedy packing;
    one unit of fuel per word left is enough. *)
Lemma pack_loop_pack cols ws : forall fuel words idx line,
  drop idx words = ws -> (length ws <= fuel)%nat ->
  exists k,
    pack_loop fuel cols words idx line = Some ((idx + k)%nat, fst (pack cols line ws))
    /\ snd (pack cols line ws) = drop (idx + k) words.
Proof.
  induction ws as [|w ws IH]; intros fuel words idx line Hd Hf.
  - exists 0%nat. rewrite Nat.add_0_r.
    assert (Hn : words !! idx = None).
    { apply lookup_ge_None. apply (f_equal length) in Hd.
      rewrite length_drop in Hd. cbn in Hd. lia. }
    destruct fuel; cbn [pack_loop pack fst snd]; rewrite Hn; now rewrite Hd.
  - assert (Hw : words !! idx = Some w).
    { rewrite <- (Nat.add_0_r idx), <- lookup_drop, Hd. reflexivity. }
    assert (Hd' : drop (S idx) words = ws).
    { rewrite (drop_S _ _ _ Hw) in Hd. now injection Hd. }
    cbn [pack]. destruct (len line + len w <=? cols) eqn:Hfit.
    + destruct fuel as [|fuel]; [cbn in Hf; lia|].
      destruct (IH fuel words (S idx) ((line ++ w) ++ py " ") Hd') as (k & Hk & Hr).
      { cbn in Hf. lia. }
      exists (S k). rewrite Nat.add_succ_r. cbn [pack_loop].
      rewrite Hw, Hfit. now split.
    + exists 0%nat. rewrite Nat.add_0_r.
      destruct fuel; cbn [pack_loop fst snd]; rewrite Hw, Hfit; now rewrite Hd.
Qed.

(** What the packing takes is a prefix of the words, each followed by one
    space, and it stops only at a word that no longer fits. *)
Lemma pack_greedy cols : forall ws line,
  exists taken,
    ws = taken ++ snd (pack cols line ws)
    /\ fst (pack cols line ws) = line ++ concat (map (fun w => w ++ py " ") taken)
    /\ match snd (pack cols line ws) with
       | [] => True
       | w :: _ => cols < len (fst (pack cols line ws)) + len w
       end.
Proof.
  induction ws as [|w ws IH]; intros line.
  - exists []. cbn. now rewrite app_nil_r.
  - cbn [pack]. destruct (len line + len w <=? cols) eqn:Hfit.
    + destruct (IH ((line ++ w) ++ py " ")) as (taken & Hws & Hline & Hstop).
      exists (w :: taken). split; [|split].
      * cbn [app]. now rewrite <- Hws.
      * rewrite Hline. cbn [map concat]. now rewrite <- !app_assoc.
      * exact Hstop.
    + exists []. cbn [app map concat fst snd]. rewrite app_nil_r.
      apply Z.leb_gt in Hfit. repeat split. lia.
Qed.

Section LayoutProofs.

Variable isspace : Z -> bool.

Lemma render_add_line addr l p :
  render addr (add_line l p) =
  (set_cursor_trace addr (fst l) 0 ++ write_string_trace addr (snd l)) ++ render addr p.
Proof. unfold render, add_line. cbn. now rewrite <- !app_assoc. Qed.

(** The outer loop performs the render plan of the words still to place,
    provided the rows the plan touches are rows [set_cursor] accepts. *)
Lemma write_loop_layout : forall fuel words idx row self,
  0 <= row -> 1 <= __cols self ->
  (Z.to_nat (__rows self - row) <= fuel)%nat ->
  let p := layout isspace (__cols self) (Z.to_nat (__rows self - row)) row
                  (drop idx words) in
  Forall (fun l => fst l < 4) (lines p) ->
  (parked p = true -> next_row p < 4) ->
  write_loop isspace fuel words idx row self =
  (Ok (next_row p), emit (render (__display_address self) p) self).
Proof.
  induction fuel as [|fuel IH]; intros words idx row self Hrow Hcols Hfuel.
  - assert (E : (row <? __rows self) = false) by (apply Z.ltb_ge; lia).
    cbn [write_loop]. rewrite E.
    replace (Z.to_nat (__rows self - row)) with 0%nat by lia.
    cbn. intros _ _. unfold ret, render. cbn. now rewrite emit_nil.
  - cbn [write_loop]. destruct (row <? __rows self) eqn:E.
    2:{ apply Z.ltb_ge in E.
        replace (Z.to_nat (__rows self - row)) with 0%nat by lia.
        cbn. intros _ _. unfold ret, render. cbn. now rewrite emit_nil. }
    apply Z.ltb_lt in E.
    replace (Z.to_nat (__rows self - row))
      with (S (Z.to_nat (__rows self - (row + 1)))) in * by lia.
    cbn [layout].
    destruct (pack_loop_pack (__cols self) (drop idx words) (length words) words idx [])
      as (k & Hk & Hrest); [reflexivity | rewrite length_drop; lia |].
    rewrite Hk.
    destruct (pack (__cols self) [] (drop idx words)) as [line rest] eqn:Hpack.
    cbn [fst snd] in *.
    destruct line as [|c line].
    + change (0 <? len (@nil Z)) with false. cbn iota.
      destruct rest as [|w rest].
      * cbn zeta. cbn [lines parked next_row]. intros _ Hpark.
        erewrite bind_ok by (apply set_cursor_run; auto with zarith).
        assert (Hge : ((idx + k <? length words)%nat) = false).
        { apply Nat.ltb_ge. symmetry in Hrest. apply (f_equal length) in Hrest.
          rewrite length_drop in Hrest. cbn in Hrest. lia. }
        rewrite Hge. unfold ret, render. cbn. reflexivity.
      * cbn zeta. cbn [add_line lines parked next_row].
        intros Hlines Hpark. apply Forall_cons in Hlines as [Hhere Hlines].
        cbn [fst] in Hhere.
        erewrite bind_ok by (apply set_cursor_run; lia).
        assert (Hw : words !! (idx + k)%nat = Some w).
        { rewrite <- (Nat.add_0_r (idx + k)), <- lookup_drop, <- Hrest. reflexivity. }
        assert (Hlt : ((idx + k <? length words)%nat) = true).
        { apply Nat.ltb_lt. eapply lookup_lt_Some, Hw. }
        assert (Hd : drop (S (idx + k)) words = rest).
        { rewrite (drop_S _ _ _ Hw) in Hrest. now injection Hrest. }
        rewrite Hlt, Hw. cbn [default]. rewrite cols_emit.
        unfold slice_to, slice_from.
        replace (0 <=? __cols self) with true by (symmetry; apply Z.leb_le; lia).
        erewrite bind_ok by apply write_string_run.
        rewrite IH; rewrite ?rows_emit, ?cols_emit, ?address_emit,
          ?(drop_insert_here _ _ _ _ Hw), ?Hd; try assumption; try lia.
        rewrite render_add_line, !emit_emit, <- !app_assoc.
        reflexivity.
    + replace (0 <? len (c :: line)) with true
        by (symmetry; apply Z.ltb_lt; unfold len; cbn [length]; lia).
      cbn zeta. cbn [add_line lines parked next_row].
      intros Hlines Hpark. apply Forall_cons in Hlines as [Hhere Hlines].
      cbn [fst] in Hhere.
      erewrite bind_ok by (apply set_cursor_run; lia).
      erewrite bind_ok by apply write_string_run.
      rewrite IH; rewrite ?rows_emit, ?cols_emit, ?address_emit, <- ?Hrest;
        try assumption; try lia.
      rewrite render_add_line, !emit_emit, <- !app_assoc.
      reflexivity.
Qed.

(** [set_cursor] either raises, leaving the object as it was, or sends its
    command. *)
Lemma set_cursor_outcome row col self :
  (exists e, set_cursor row col self = (Raise e, self))
  \/ set_cursor row col self =
     (Ok tt, emit (set_cursor_trace (__display_address self) row col) self).
Proof.
  destruct (Z_le_dec 0 row), (Z_lt_dec row 4);
    try (left; eexists; apply set_cursor_bad_row; lia).
  destruct (Z_le_dec 0 col), (Z_lt_dec col (__cols self));
    try (left; eexists; apply set_cursor_bad_col; lia).
  right. apply set_cursor_run; lia.
Qed.

(** The loop bounds of the model are never hit: [write] returns or raises,
    whatever the text, the start row and the geometry. *)
Lemma write_loop_total : forall fuel words idx row self,
  (Z.to_nat (__rows self - row) <= fuel)%nat ->
  fst (write_loop isspace fuel words idx row self) <> OutOfFuel.
Proof.
  induction fuel as [|fuel IH]; intros words idx row self Hfuel;
    cbn [write_loop]; destruct (row <? __rows self) eqn:E;
    try discriminate; apply Z.ltb_lt in E; [lia|].
  destruct (pack_loop_pack (__cols self) (drop idx words) (length words) words idx [])
    as (k & Hk & _); [reflexivity | rewrite length_drop; lia |].
  rewrite Hk.
  destruct (set_cursor_outcome row 0 self) as [[e He] | Hok].
  - erewrite bind_raise by exact He. discriminate.
  - erewrite bind_ok by exact Hok.
    destruct (0 <? len (pack (__cols self) [] (drop idx words)).1).
    + erewrite bind_ok by apply write_string_run.
      apply IH. rewrite !rows_emit. lia.
    + destruct (idx + k <? length words)%nat; [|discriminate].
      erewrite bind_ok by apply write_string_run.
      apply IH. rewrite !rows_emit. lia.
Qed.

Lemma write_total text row self :
  fst (write isspace text row self) <> OutOfFuel.
Proof. unfold write. now apply write_loop_total. Qed.

(** The shape of a plan: rows in order from [row]; either it stops early on a
    row it only parks the cursor on, or it uses every row left. *)
Lemma layout_shape cols : forall n row ws,
  let p := layout isspace cols n row ws in
  (forall i l, lines p !! i = Some l -> fst l = row + Z.of_nat i)
  /\ next_row p = row + len (lines p)
  /\ ((parked p = true /\ dropped p = [] /\ (length (lines p) < n)%nat)
      \/ (parked p = false /\ length (lines p) = n)).
Proof.
  induction n as [|n IH]; intros row ws; cbn [layout].
  - cbn. split; [intros i l H; now rewrite lookup_nil in H|].
    split; [unfold len; cbn; lia | now right].
  - assert (Hadd : forall l ws',
      let p := add_line l (layout isspace cols n (row + 1) ws') in
      fst l = row ->
      (forall i l', lines p !! i = Some l' -> fst l' = row + Z.of_nat i)
      /\ next_row p = row + len (lines p)
      /\ ((parked p = true /\ dropped p = [] /\ (length (lines p) < S n)%nat)
          \/ (parked p = false /\ length (lines p) = S n))).
    { intros l ws' p Hl. subst p. cbn [add_line lines parked next_row dropped].
      destruct (IH (row + 1) ws') as (Hrows & Hnext & Hend).
      split; [|split].
      - intros [|i] l' H; cbn in H.
        + injection H as <-. lia.
        + rewrite (Hrows _ _ H). lia.
      - rewrite Hnext. unfold len. cbn [length]. lia.
      - destruct Hend as [(? & ? & ?) | (? & ?)]; [left | right];
          repeat split; cbn [length]; try assumption; lia. }
    destruct (pack cols [] ws) as [[|c line] [|w rest]].
    + cbn. split; [intros i l H; now rewrite lookup_nil in H|].
      split; [unfold len; cbn; lia | left; repeat split; lia].
    + now apply Hadd.
    + now apply Hadd.
    + now apply Hadd.
Qed.

(** *** [split] and [rstrip] *)

Hypothesis isspace_space : isspace 32 = true.

Lemma split_words_ok : forall s word,
  Forall (fun c => isspace c = false) word ->
  Forall (fun w => w <> [] /\ Forall (fun c => isspace c = false) w)
         (split_words isspace word s).
Proof.
  induction s as [|c s IH]; intros word Hword; cbn [split_words].
  - destruct word; [constructor|]. constructor; [|constructor]. now split.
  - destruct (isspace c) eqn:Hc.
    + destruct word as [|a word]; [apply IH; constructor|].
      constructor; [now split | apply IH; constructor].
    + apply IH. apply Forall_app. split; [assumption|]. now constructor.
Qed.

Lemma split_whitespace s :
  Forall (fun c => isspace c = true) s -> split isspace s = [].
Proof.
  unfold split. induction 1 as [|c s Hc _ IH]; cbn [split_words]; [reflexivity|].
  now rewrite Hc.
Qed.

Lemma split_one_word : forall w word,
  Forall (fun c => isspace c = false) w -> word ++ w <> [] ->
  split_words isspace word w = [word ++ w].
Proof.
  induction w as [|c w IH]; intros word Hw Hne; cbn [split_words].
  - rewrite app_nil_r in *. now destruct word.
  - apply Forall_cons in Hw as [Hc Hw]. rewrite Hc.
    rewrite IH; [now rewrite <- app_assoc | assumption |].
    rewrite <- app_assoc. assumption.
Qed.

Lemma rstrip_app_space s : rstrip isspace (s ++ [32]) = rstrip isspace s.
Proof.
  induction s as [|c s IH]; cbn [rstrip app].
  - now rewrite isspace_space.
  - now rewrite IH.
Qed.

Lemma rstrip_last s c :
  isspace c = false -> rstrip isspace (s ++ [c]) = s ++ [c].
Proof.
  intros Hc. induction s as [|a s IH]; cbn [rstrip app].
  - now rewrite Hc.
  - rewrite IH. now destruct s.
Qed.

Lemma rstrip_word_space w :
  w <> [] -> Forall (fun c => isspace c = false) w ->
  rstrip isspace (w ++ py " ") = w.
Proof.
  intros Hne Hw. change (py " ") with [32]. rewrite rstrip_app_space.
  destruct (exists_last Hne) as (t & c & ->).
  apply rstrip_last. apply Forall_app in Hw as [_ Hc].
  now apply Forall_cons in Hc as [Hc _].
Qed.

(** Words joined by single spaces end in a character of the last word. *)
Lemma join_ok ws :
  ws <> [] ->
  Forall (fun w => w <> [] /\ Forall (fun c => isspace c = false) w) ws ->
  exists t c, join ws = t ++ [c] /\ isspace c = false.
Proof.
  induction ws as [|w ws IH]; intros Hne Hws; [contradiction|].
  apply Forall_cons in Hws as [[Hw Hcs] Hws].
  destruct ws as [|w' ws].
  - cbn [join]. destruct (exists_last Hw) as (t & c & ->).
    exists t, c. split; [reflexivity|].
    apply Forall_app in Hcs as [_ Hc]. now apply Forall_cons in Hc as [Hc _].
  - destruct IH as (t & c & Ht & Hc); [discriminate | assumption |].
    exists (w ++ py " " ++ t), c. split; [|assumption].
    cbn [join] in *. rewrite Ht. now rewrite <- !app_assoc.
Qed.

(** Words that fit one line together are all packed on it. *)
Lemma pack_all cols : forall ws line,
  ws <> [] -> len line + len (join ws) <= cols ->
  pack cols line ws = (line ++ join ws ++ py " ", []).
Proof.
  assert (Hlen : forall a b : list Z, len (a ++ b) = len a + len b).
  { intros a b. unfold len. rewrite length_app. lia. }
  induction ws as [|w ws IH]; intros line Hne Hfit; [contradiction|].
  destruct ws as [|w' ws].
  - cbn [join pack] in *.
    replace (len line + len w <=? cols) with true by (symmetry; apply Z.leb_le; lia).
    now rewrite <- app_assoc.
  - change (pack cols line (w :: w' :: ws))
      with (if len line + len w <=? cols
            then pack cols ((line ++ w) ++ py " ") (w' :: ws)
            else (line, w :: w' :: ws)).
    change (join (w :: w' :: ws)) with (w ++ py " " ++ join (w' :: ws)) in *.
    rewrite !Hlen in Hfit.
    assert (0 <= len (join (w' :: ws))) by (unfold len; lia).
    change (len (py " ")) with 1 in Hfit.
    replace (len line + len w <=? cols) with true by (symmetry; apply Z.leb_le; lia).
    rewrite IH; [now rewrite <- !app_assoc | discriminate |].
    rewrite !Hlen. change (len (py " ")) with 1. lia.
Qed.

(** A line that stays empty has taken no word: the next word, if any, does
    not fit an empty line. *)
Lemma pack_loop_empty cols words : forall fuel idx line idx',
  pack_loop fuel cols words idx line = Some (idx', []) ->
  idx' = idx /\ line = [] /\
  forall w, words !! idx = Some w -> cols < len w.
Proof.
  induction fuel as [|fuel IH]; intros idx line idx' H; cbn [pack_loop] in H.
  - destruct (words !! idx) as [w|] eqn:Hw.
    + destruct (len line + len w <=? cols) eqn:Hfit; [discriminate|].
      injection H as <- ->. repeat split. intros w' [= <-].
      apply Z.leb_gt in Hfit. unfold len in *. cbn [length] in *. lia.
    + injection H as <- ->. repeat split. discriminate.
  - destruct (words !! idx) as [w|] eqn:Hw.
    + destruct (len line + len w <=? cols) eqn:Hfit.
      * apply IH in H as (_ & Habs & _). now destruct (line ++ w).
      * injection H as <- ->. repeat split. intros w' [= <-].
        apply Z.leb_gt in Hfit. unfold len in *. cbn [length] in *. lia.
    + injection H as <- ->. repeat split. discriminate.
Qed.

End LayoutProofs.

(** * The claims *)

(** ** C1: the frames of one byte *)

(** C1, as amended: for every value in 0..255 and every mode in
    {[LCD_COMMAND], [LCD_CHARACTER]}, [__send_byte] succeeds and produces
    exactly six transport writes, three per nibble (the frame, the frame with
    the enable bit, the frame again); every one has bit 3 (backlight) set and
    bit 0 equal to the mode's low bit; the high nibble of the first three is
    the value's high nibble, that of the last three the value's low nibble
    shifted left by 4; bit 2 (enable) goes 0, 1, 0 in each group. *)
Theorem send_byte_six_writes value mode self :
  0 <= value <= 255 ->
  mode = LCD_COMMAND \/ mode = LCD_CHARACTER ->
  exists es ws,
    __send_byte value mode self = (Ok tt, emit es self)
    /\ writes es = ws
    /\ length ws = 6%nat
    /\ Forall (fun w => Z.testbit w 3 = true /\ Z.testbit w 0 = Z.testbit mode 0) ws
    /\ map (fun w => Z.land w 0xf0) ws =
       [Z.land value 0xf0; Z.land value 0xf0; Z.land value 0xf0;
        Z.shiftl (Z.land value 0x0f) 4; Z.shiftl (Z.land value 0x0f) 4;
        Z.shiftl (Z.land value 0x0f) 4]
    /\ map (fun w => Z.testbit w 2) ws = [false; true; false; false; true; false].
Proof.
  intros _ Hm.
  eexists. eexists. split; [apply send_byte_run; assumption|].
  split; [apply send_byte_writes; assumption|]. cbn zeta.
  split; [reflexivity|]. split; [|split].
  - repeat constructor;
      auto using frame_backlight, frame_rs, frame_pulse_backlight, frame_pulse_rs.
  - cbn [map]. rewrite <- low_nibble_shifted.
    now rewrite !frame_pulse_nibble, !frame_nibble by assumption.
  - cbn [map]. now rewrite !frame_pulse_enable, !frame_enable by assumption.
Qed.

Lemma send_byte_six_writes_witness :
  exists es, __send_byte 0x41 LCD_CHARACTER example_display = (Ok tt, emit es example_display)
             /\ length (writes es) = 6%nat.
Proof.
  destruct (send_byte_six_writes 0x41 LCD_CHARACTER example_display)
    as (es & ws & Hrun & Hws & Hlen & _); [lia | now right |].
  exists es. split; [exact Hrun | now rewrite Hws].
Defined.

(** Sending the character 'A' writes six bytes to the bus, not two. *)
Lemma send_byte_not_two_writes :
  writes (trace (snd (__send_byte 0x41 LCD_CHARACTER example_display)))
  = [0x49; 0x4d; 0x49; 0x19; 0x1d; 0x19]
  /\ length (writes (trace (snd (__send_byte 0x41 LCD_CHARACTER example_display)))) <> 2%nat.
Proof. split; [reflexivity | discriminate]. Qed.

(** ** C2: values outside 0..255 *)

(** C2, as amended: for every integer value outside 0..255,
    [__write_i2c_byte] raises the out-of-bounds exception and writes nothing;
    [__send_byte] has no range check of its own: for either mode it succeeds,
    and sends the six transport writes of the value's low eight bits
    (value mod 256). *)
Theorem send_byte_masks_out_of_range value mode self :
  value < 0 \/ 255 < value ->
  mode = LCD_COMMAND \/ mode = LCD_CHARACTER ->
  __write_i2c_byte value self = (Raise ByteOutOfBounds, self)
  /\ __send_byte value mode self = __send_byte (value mod 256) mode self
  /\ __send_byte value mode self =
     (Ok tt, emit (send_byte_trace (__display_address self) (value mod 256) mode) self)
  /\ length (writes (send_byte_trace (__display_address self) (value mod 256) mode)) = 6%nat.
Proof.
  intros Hv Hm. split; [now apply write_i2c_byte_out_of_range|].
  rewrite !send_byte_run by assumption.
  rewrite <- send_byte_trace_mod.
  split; [reflexivity|]. split; [reflexivity|].
  now rewrite send_byte_writes.
Qed.

Lemma send_byte_masks_out_of_range_witness :
  __send_byte 256 LCD_COMMAND example_display
  = __send_byte (256 mod 256) LCD_COMMAND example_display.
Proof.
  apply (send_byte_masks_out_of_range 256 LCD_COMMAND example_display);
    [right; lia | now left].
Defined.

(** The value 256 is sent without an error, as the byte 0 would be. *)
Lemma send_byte_256_is_sent :
  fst (__send_byte 256 LCD_COMMAND example_display) = Ok tt
  /\ writes (trace (snd (__send_byte 256 LCD_COMMAND example_display)))
     = [0x08; 0x0c; 0x08; 0x08; 0x0c; 0x08].
Proof. split; reflexivity. Qed.

(** ** C3: cursor addressing *)

Lemma lor_128 x : 0 <= x < 128 -> Z.lor 128 x = 128 + x.
Proof.
  intros H.
  assert (E : Z.land 128 x = 0).
  { replace x with (x mod 2 ^ 7) by (apply Z.mod_small; lia).
    rewrite <- Z.land_ones by lia.
    rewrite (Z.land_comm x), Z.land_assoc. reflexivity. }
  now rewrite <- Z.lxor_lor, <- Z.add_nocarry_lxor.
Qed.

(** C3, as amended: for every row in {0,1,2,3} and every col in [0, cols),
    [set_cursor] sends as a command the value
    [(LCD_SET_DDRAM | col) + offset], offset being 0x00, 0x40, 0x14, 0x54 for
    rows 0, 1, 2, 3; this is [LCD_SET_DDRAM | (offset + col)] whenever
    offset + col < 128 (so for every column of a display of at most 44
    columns).  For every row outside [0,4) or col outside [0, cols),
    [set_cursor] raises and issues no transport write. *)
Theorem set_cursor_ddram row col self :
  (ddram_offset 0 = 0x00 /\ ddram_offset 1 = 0x40
   /\ ddram_offset 2 = 0x14 /\ ddram_offset 3 = 0x54)
  /\ (0 <= row < 4 -> 0 <= col < __cols self ->
      set_cursor row col self =
        __send_byte (Z.lor LCD_SET_DDRAM col + ddram_offset row) LCD_COMMAND self
      /\ set_cursor row col self =
        (Ok tt, emit (send_byte_trace (__display_address self)
                        (Z.lor LCD_SET_DDRAM col + ddram_offset row) LCD_COMMAND) self)
      /\ (ddram_offset row + col < 128 ->
          Z.lor LCD_SET_DDRAM col + ddram_offset row
          = Z.lor LCD_SET_DDRAM (ddram_offset row + col))
      /\ (__cols self <= 44 -> ddram_offset row + col < 128))
  /\ (~ (0 <= row < 4 /\ 0 <= col < __cols self) ->
      exists e, set_cursor row col self = (Raise e, self)).
Proof.
  split; [repeat split|]. split.
  - intros Hr Hc.
    assert (Hoff : 0 <= ddram_offset row <= 0x54).
    { assert (E : row = 0 \/ row = 1 \/ row = 2 \/ row = 3) by lia.
      destruct E as [-> | [-> | [-> | ->]]]; cbn; lia. }
    split; [|split; [|split]].
    + rewrite set_cursor_run by assumption. symmetry. apply send_byte_run. now left.
    + now apply set_cursor_run.
    + intros Hsum. change LCD_SET_DDRAM with 128. rewrite !lor_128 by lia. lia.
    + lia.
  - intros Hbad.
    destruct (Z_le_dec 0 row), (Z_lt_dec row 4);
      try (eexists; apply set_cursor_bad_row; lia).
    eexists. apply set_cursor_bad_col; lia.
Qed.

Lemma set_cursor_ddram_witness :
  set_cursor 2 5 example_display =
  (Ok tt, emit (send_byte_trace 0x27 (Z.lor LCD_SET_DDRAM (0x14 + 5)) LCD_COMMAND)
               example_display)
  /\ exists e, set_cursor 4 0 example_display = (Raise e, example_display).
Proof.
  destruct (set_cursor_ddram 2 5 example_display) as (_ & Hok & _).
  destruct Hok as (_ & Hrun & _); [lia | cbn; lia |].
  split.
  - rewrite Hrun. reflexivity.
  - apply (set_cursor_ddram 4 0 example_display). lia.
Defined.

(** On a display 45 columns wide, row 3, column 44 is a valid position: the
    value handed to [__send_byte] is 256, sent as the command 0x00 and not as
    [LCD_SET_DDRAM | (0x54 + 44)] = 0x80. *)
Lemma set_cursor_wide_display :
  let wide := mkLCD 0x27 4 45 true false false [] in
  writes (trace (snd (set_cursor 3 44 wide))) = [0x08; 0x0c; 0x08; 0x08; 0x0c; 0x08]
  /\ writes (trace (snd (__send_byte (Z.lor LCD_SET_DDRAM (0x54 + 44)) LCD_COMMAND wide)))
     = [0x88; 0x8c; 0x88; 0x08; 0x0c; 0x08]
  /\ fst (set_cursor 3 44 wide) = Ok tt.
Proof. repeat split. Qed.

Section LayoutClaims.

Variable isspace : Z -> bool.
Hypothesis isspace_space : isspace 32 = true.

(** ** C4: the word wrap *)

(** On a display of at most four rows, every row a plan touches is one
    [set_cursor] accepts. *)
Lemma layout_rows_ok cols rows row ws :
  rows <= 4 ->
  let p := layout isspace cols (Z.to_nat (rows - row)) row ws in
  Forall (fun l => fst l < rows) (lines p)
  /\ (parked p = true -> next_row p < rows)
  /\ (parked p = false -> next_row p = Z.max row rows).
Proof.
  intros Hrows p.
  destruct (layout_shape isspace cols (Z.to_nat (rows - row)) row ws)
    as (Hrow & Hnext & Hend).
  fold p in Hrow, Hnext, Hend. unfold len in Hnext. split; [|split].
  - apply Forall_lookup. intros i l Hl. rewrite (Hrow _ _ Hl).
    apply lookup_lt_Some in Hl.
    destruct Hend as [(_ & _ & ?) | (_ & ?)]; lia.
  - intros Hp. destruct Hend as [(_ & _ & ?) | (? & _)]; [lia | congruence].
  - intros Hp. destruct Hend as [(? & _) | (_ & ?)]; [congruence | lia].
Qed.

Lemma write_run text start_row self :
  0 <= start_row -> __rows self <= 4 -> 1 <= __cols self ->
  let p := write_plan isspace (__cols self) (__rows self) text start_row in
  write isspace text start_row self =
  (Ok (next_row p), emit (render (__display_address self) p) self).
Proof.
  intros Hstart Hrows Hcols p. unfold write.
  destruct (layout_rows_ok (__cols self) (__rows self) start_row (split isspace text) Hrows)
    as (Hlines & Hpark & _).
  apply write_loop_layout; try assumption; try lia.
  - rewrite drop_0. eapply Forall_impl; [exact Hlines|].
    intros l Hl. cbv beta in *. lia.
  - rewrite drop_0. intros H. specialize (Hpark H). lia.
Qed.

(** C4, as amended: on a display with cols >= 1 and rows <= 4, for every
    string text and every start_row >= 0, [write] splits text on whitespace
    into words and performs the render plan of these words: for each row from
    start_row while rows remain it packs consecutive words greedily, each
    followed by one space, while the line length plus the next word's length
    stays at most cols, sets the cursor to (row, 0) and writes the trimmed
    line (a word too long for an empty line is cut at cols instead); the rows
    written are start_row, start_row + 1, ... and the value returned is the
    first row not written to; when the words are used up with a row left it
    stops on that row; when the rows are exhausted with words remaining it
    drops them without an error and returns max(start_row, rows), which is the
    total row count whenever start_row <= rows. *)
Theorem write_word_wrap text start_row self :
  0 <= start_row -> __rows self <= 4 -> 1 <= __cols self ->
  let p := write_plan isspace (__cols self) (__rows self) text start_row in
  write isspace text start_row self =
    (Ok (next_row p), emit (render (__display_address self) p) self)
  /\ (forall i l, lines p !! i = Some l -> fst l = start_row + Z.of_nat i)
  /\ next_row p = start_row + len (lines p)
  /\ (parked p = true -> dropped p = [] /\ next_row p < __rows self)
  /\ (dropped p <> [] ->
      parked p = false /\ next_row p = Z.max start_row (__rows self))
  /\ (start_row <= __rows self -> next_row p <= __rows self).
Proof.
  intros Hstart Hrows Hcols p.
  split; [now apply write_run|].
  destruct (layout_shape isspace (__cols self) (Z.to_nat (__rows self - start_row))
              start_row (split isspace text)) as (Hrow & Hnext & Hend).
  destruct (layout_rows_ok (__cols self) (__rows self) start_row (split isspace text) Hrows)
    as (_ & Hpark & Hfull).
  fold (write_plan isspace (__cols self) (__rows self) text start_row)
    in Hrow, Hnext, Hend, Hpark, Hfull.
  fold p in Hrow, Hnext, Hend, Hpark, Hfull.
  split; [exact Hrow|]. split; [exact Hnext|]. split; [|split].
  - intros Hp. split; [|auto]. destruct Hend as [(_ & ? & _) | (? & _)]; congruence.
  - intros Hd. destruct Hend as [(_ & ? & _) | (Hp & _)]; [contradiction|]. auto.
  - intros Hle. destruct (parked p) eqn:Hp.
    + specialize (Hpark eq_refl). lia.
    + rewrite (Hfull eq_refl). lia.
Qed.

(** ** C10: the cursor parked on the returned row *)

(** C10, as amended: on a display with cols >= 1 and rows <= 4 and for
    start_row >= 0, whenever [write] returns a row below the row count (its
    words were used up before the rows were), nothing is dropped, every row
    written lies before the returned one, and the last thing sent is one more
    cursor-set command addressing (returned_row, 0), with no character after
    it; in particular for an empty or all-whitespace text and start_row in
    [0, rows), [write] issues exactly one cursor-set command sequence, for
    (start_row, 0), and returns start_row. *)
Theorem write_parks_cursor text start_row self :
  0 <= start_row -> __rows self <= 4 -> 1 <= __cols self ->
  let p := write_plan isspace (__cols self) (__rows self) text start_row in
  (next_row p < __rows self ->
   dropped p = []
   /\ Forall (fun l => fst l < next_row p) (lines p)
   /\ write isspace text start_row self =
      (Ok (next_row p),
       emit (render_lines (__display_address self) (lines p) ++
             set_cursor_trace (__display_address self) (next_row p) 0) self))
  /\ (Forall (fun c => isspace c = true) text -> start_row < __rows self ->
      write isspace text start_row self =
      (Ok start_row, emit (set_cursor_trace (__display_address self) start_row 0) self)).
Proof.
  intros Hstart Hrows Hcols p. split.
  - intros Hnext.
    destruct (layout_shape isspace (__cols self) (Z.to_nat (__rows self - start_row))
                start_row (split isspace text)) as (Hrow & Hn & Hend).
    fold (write_plan isspace (__cols self) (__rows self) text start_row) in Hrow, Hn, Hend.
    fold p in Hrow, Hn, Hend. unfold len in Hn.
    destruct Hend as [(Hp & Hd & Hlt) | (_ & Hfull)]; [|lia].
    split; [exact Hd|]. split.
    + apply Forall_lookup. intros i l Hl. rewrite (Hrow _ _ Hl).
      apply lookup_lt_Some in Hl. lia.
    + rewrite write_run by assumption. fold p. unfold render. now rewrite Hp.
  - intros Hws Hlt. rewrite write_run by assumption.
    unfold write_plan. rewrite (split_whitespace isspace text Hws).
    replace (Z.to_nat (__rows self - start_row))
      with (S (Z.to_nat (__rows self - (start_row + 1)))) by lia.
    reflexivity.
Qed.

(** ** C5: a word longer than the display is wide *)

(** Side conditions on the rows of a plan that is known in full. *)
Ltac plan_rows :=
  first [ discriminate | solve [repeat constructor] | (intros _; cbn; lia) ].

Lemma layout_long_word cols n row w rest :
  cols < len w ->
  layout isspace cols (S n) row (w :: rest) =
  add_line (row, take (Z.to_nat cols) w)
           (layout isspace cols n (row + 1) (drop (Z.to_nat cols) w :: rest)).
Proof.
  intros Hlong. cbn [layout pack].
  replace (len (@nil Z) + len w <=? cols) with false
    by (symmetry; apply Z.leb_gt; unfold len in *; cbn [length]; lia).
  reflexivity.
Qed.

Lemma layout_one_line cols n row ws :
  ws <> [] ->
  Forall (fun w => w <> [] /\ Forall (fun c => isspace c = false) w) ws ->
  len (join ws) <= cols ->
  layout isspace cols (S n) row ws =
  add_line (row, join ws) (layout isspace cols n (row + 1) []).
Proof.
  intros Hne Hws Hfit. cbn [layout].
  rewrite pack_all by (try assumption; unfold len in *; cbn [length]; lia).
  cbn [app].
  destruct (join_ok isspace ws Hne Hws) as (t & c & Ht & Hc).
  assert (Hstrip : rstrip isspace (join ws ++ py " ") = join ws).
  { change (py " ") with [32]. rewrite rstrip_app_space by assumption.
    rewrite Ht. now apply rstrip_last. }
  destruct (join ws ++ py " ") as [|a line] eqn:E.
  - apply app_eq_nil in E as [_ E]. discriminate.
  - now rewrite Hstrip.
Qed.

(** C5: in [write], whenever no word fits on the current line (the line is
    empty) and unconsumed words remain, then, the cursor once set on the
    current row, the next word is cut at its first cols characters, that
    prefix is written on the current row and the rest of the word takes its
    place in the word list, where the packing of the next row finds it first;
    the rest is not empty and is shorter than the word, so the loop makes
    progress.  In particular a single word of 30 characters on a display of
    four rows of 20 columns is written as its first 20 characters on row 0
    and its remaining 10 characters on row 1. *)
Theorem write_splits_long_word :
  (forall fuel words idx idx' row self self',
     row < __rows self ->
     pack_loop (length words) (__cols self) words idx [] = Some (idx', []) ->
     (idx' < length words)%nat ->
     set_cursor row 0 self = (Ok tt, self') ->
     exists w,
       words !! idx' = Some w /\ idx' = idx /\ __cols self < len w
       /\ write_loop isspace (S fuel) words idx row self =
          write_loop isspace fuel
            (<[idx' := drop (Z.to_nat (__cols self)) w]> words) idx' (row + 1)
            (emit (write_string_trace (__display_address self)
                     (take (Z.to_nat (__cols self)) w)) self')
       /\ self' = emit (set_cursor_trace (__display_address self) row 0) self
       /\ (<[idx' := drop (Z.to_nat (__cols self)) w]> words) !! idx'
          = Some (drop (Z.to_nat (__cols self)) w)
       /\ 0 < len (drop (Z.to_nat (__cols self)) w) < len w)
  /\ (forall w self,
        Forall (fun c => isspace c = false) w -> len w = 30 ->
        __rows self = 4 -> __cols self = 20 ->
        write isspace w 0 self =
        (Ok 2,
         emit (set_cursor_trace (__display_address self) 0 0 ++
               write_string_trace (__display_address self) (take 20 w) ++
               set_cursor_trace (__display_address self) 1 0 ++
               write_string_trace (__display_address self) (drop 20 w) ++
               set_cursor_trace (__display_address self) 2 0) self)).
Proof.
  split.
  - intros fuel words idx idx' row self self' Hrow Hpack Hidx Hcur.
    assert (Hr : 0 <= row < 4).
    { destruct (Z_le_dec 0 row), (Z_lt_dec row 4); try lia;
        rewrite set_cursor_bad_row in Hcur by lia; discriminate. }
    assert (Hc : 0 <= 0 < __cols self).
    { destruct (Z_lt_dec 0 (__cols self)); [lia|].
      rewrite set_cursor_bad_col in Hcur by lia. discriminate. }
    rewrite set_cursor_run in Hcur by assumption. injection Hcur as <-.
    destruct (pack_loop_empty _ _ _ _ _ _ Hpack) as (-> & _ & Hlong).
    destruct (lookup_lt_is_Some_2 words idx Hidx) as [w Hw].
    specialize (Hlong w Hw). exists w.
    split; [exact Hw|]. split; [reflexivity|]. split; [exact Hlong|].
    split; [|split; [reflexivity|split]].
    + cbn [write_loop].
      replace (row <? __rows self) with true by (symmetry; apply Z.ltb_lt; lia).
      rewrite Hpack.
      erewrite bind_ok by (apply set_cursor_run; assumption).
      change (0 <? len (@nil Z)) with false. cbn iota.
      replace ((idx <? length words)%nat) with true
        by (symmetry; apply Nat.ltb_lt; lia).
      rewrite Hw. cbn [default]. rewrite cols_emit.
      unfold slice_to, slice_from.
      replace (0 <=? __cols self) with true by (symmetry; apply Z.leb_le; lia).
      erewrite bind_ok by apply write_string_run.
      rewrite ?address_emit. reflexivity.
    + now apply list_lookup_insert_eq.
    + unfold len in *. rewrite length_drop. lia.
  - intros w self Hw Hlen Hrows Hcols.
    assert (Hne : w <> []) by (intros ->; discriminate).
    assert (Hsplit : split isspace w = [w])
      by (apply (split_one_word isspace w []); assumption).
    assert (Hrest : len (drop 20 w) = 10)
      by (unfold len in *; rewrite length_drop; lia).
    assert (Hrest_ne : drop 20 w <> [])
      by (intros E; rewrite E in Hrest; discriminate).
    assert (Hrest_ok : Forall (fun c => isspace c = false) (drop 20 w))
      by now apply Forall_drop.
    pose proof (write_loop_layout isspace 4 (split isspace w) 0 0 self) as H.
    unfold write. rewrite Hrows, Hcols in *. cbn zeta in H.
    change (Z.to_nat (4 - 0)) with 4%nat in *. rewrite drop_0 in H.
    rewrite Hsplit in *.
    rewrite layout_long_word in H by lia.
    change (Z.to_nat 20) with 20%nat in H.
    rewrite (layout_one_line 20 2 (0 + 1) [drop 20 w]) in H.
    + cbn [layout pack join add_line lines parked next_row fst] in H.
      rewrite H; try lia; [| plan_rows ..].
      rewrite !render_add_line. unfold render, render_lines.
      cbn [lines parked next_row flat_map fst snd app].
      rewrite <- ?app_assoc, ?app_nil_r. reflexivity.
    + discriminate.
    + constructor; [now split | constructor].
    + cbn [join]. lia.
Qed.

(** ** C8: one line through [write] and through [write_string] *)

(** C8, as amended: for every non-empty string s of at most cols characters
    that is its own words joined by single spaces (no leading, trailing or
    repeated whitespace), on a display of at least one row, [write(s, 0)]
    returns 1 and produces the transport sequence of [set_cursor(0, 0)] then
    [write_string(s)], followed on a display of two or more rows by that of
    [set_cursor(1, 0)]; it sends no clear command, whereas [clear()] then
    [set_cursor(0, 0)] then [write_string(s)] starts with the frames of the
    clear command. *)
Theorem write_one_line s self :
  s <> [] -> join (split isspace s) = s ->
  len s <= __cols self -> 1 <= __rows self ->
  write isspace s 0 self =
    (Ok 1,
     emit (set_cursor_trace (__display_address self) 0 0 ++
           write_string_trace (__display_address self) s ++
           (if 1 <? __rows self
            then set_cursor_trace (__display_address self) 1 0 else [])) self)
  /\ snd (write isspace s 0 self) =
     snd ((set_cursor 0 0 ;; write_string s ;;
           if 1 <? __rows self then set_cursor 1 0 else ret tt) self)
  /\ (clear ;; set_cursor 0 0 ;; write_string s) self =
     (Ok tt,
      emit (send_byte_trace (__display_address self) LCD_CLEARDISPLAY LCD_COMMAND ++
            set_cursor_trace (__display_address self) 0 0 ++
            write_string_trace (__display_address self) s) self).
Proof.
  intros Hne Hjoin Hfit Hrows.
  assert (Hcols : 1 <= __cols self).
  { destruct s; [contradiction|]. unfold len in Hfit. cbn [length] in Hfit. lia. }
  assert (Hwords : split isspace s <> []).
  { intros E. rewrite E in Hjoin. cbn in Hjoin. congruence. }
  assert (Hok : Forall (fun w => w <> [] /\ Forall (fun c => isspace c = false) w)
                       (split isspace s)).
  { apply split_words_ok. constructor. }
  assert (Hrun : write isspace s 0 self =
    (Ok 1,
     emit (set_cursor_trace (__display_address self) 0 0 ++
           write_string_trace (__display_address self) s ++
           (if 1 <? __rows self
            then set_cursor_trace (__display_address self) 1 0 else [])) self)).
  { pose proof (write_loop_layout isspace (Z.to_nat (__rows self - 0))
                  (split isspace s) 0 0 self) as H.
    unfold write. cbn zeta in H. rewrite drop_0 in H.
    replace (Z.to_nat (__rows self - 0))
      with (S (Z.to_nat (__rows self - 1))) in * by lia.
    rewrite layout_one_line in H by (try assumption; rewrite Hjoin; assumption).
    rewrite Hjoin in H.
    destruct (1 <? __rows self) eqn:E.
    - apply Z.ltb_lt in E.
      replace (Z.to_nat (__rows self - 1))
        with (S (Z.to_nat (__rows self - 2))) in * by lia.
      cbn [layout pack add_line lines parked next_row] in H.
      rewrite H; try lia; [| plan_rows ..].
      rewrite !render_add_line. unfold render, render_lines.
      cbn [lines parked next_row flat_map fst snd app].
      rewrite <- ?app_assoc, ?app_nil_r. reflexivity.
    - apply Z.ltb_ge in E.
      replace (Z.to_nat (__rows self - 1)) with 0%nat in * by lia.
      cbn [layout add_line lines parked next_row] in H.
      rewrite H; try lia; [| plan_rows ..].
      rewrite !render_add_line. unfold render, render_lines.
      cbn [lines parked next_row flat_map fst snd app].
      rewrite <- ?app_assoc, ?app_nil_r. reflexivity. }
  split; [exact Hrun|]. split.
  - rewrite Hrun. cbn [snd].
    erewrite bind_ok by (apply set_cursor_run; lia).
    erewrite bind_ok by apply write_string_run.
    rewrite address_emit.
    destruct (1 <? __rows self) eqn:E.
    + apply Z.ltb_lt in E.
      rewrite set_cursor_run by (rewrite ?cols_emit; lia).
      cbn [snd]. rewrite ?emit_emit, ?address_emit, <- ?app_assoc. reflexivity.
    + unfold ret. cbn [snd]. rewrite ?emit_emit, ?app_nil_r. reflexivity.
  - unfold clear.
    erewrite bind_ok by (apply send_byte_run; now left).
    erewrite bind_ok by (apply set_cursor_run; rewrite ?cols_emit; lia).
    rewrite write_string_run.
    rewrite ?emit_emit, ?address_emit, <- ?app_assoc. reflexivity.
Qed.

End LayoutClaims.

(** ** C9: centred text *)

(** C9: for every string s and every row in [0, rows), [write_center(s, row)]
    sets the cursor to row [row], column (cols - len(s)) // 2 (floor
    division) and then writes s; when len(s) > cols this column is negative
    and the [set_cursor] call raises, nothing being sent; when s fits and the
    row is one [set_cursor] accepts, the cursor command for that column is
    followed by the characters of s.  In particular [write_center("2", 0)] on
    a display of 20 columns sets the cursor to column 9 before writing. *)
Theorem write_center_column :
  (forall s row self,
     0 <= row < __rows self ->
     let col := (__cols self - len s) / 2 in
     write_center s row self = (set_cursor row col ;; write_string s) self
     /\ (__cols self < len s ->
         col < 0
         /\ exists e, write_center s row self = (Raise e, self)
                      /\ (e = InvalidCursorRow row \/ e = InvalidCursorColumn col))
     /\ (row < 4 -> len s <= __cols self -> 0 < __cols self ->
         write_center s row self =
         (Ok tt, emit (set_cursor_trace (__display_address self) row col ++
                       write_string_trace (__display_address self) s) self)))
  /\ (forall self,
        __cols self = 20 -> 0 < __rows self ->
        write_center (py "2") 0 self =
        (Ok tt, emit (set_cursor_trace (__display_address self) 0 9 ++
                      write_string_trace (__display_address self) (py "2")) self)).
Proof.
  assert (Hfit : forall s row self,
    0 <= row < __rows self -> row < 4 -> len s <= __cols self -> 0 < __cols self ->
    write_center s row self =
    (Ok tt, emit (set_cursor_trace (__display_address self) row
                    ((__cols self - len s) / 2) ++
                  write_string_trace (__display_address self) s) self)).
  { intros s row self Hrow Hr Hs Hc. unfold write_center.
    replace (0 <=? row) with true by (symmetry; apply Z.leb_le; lia).
    replace (row <? __rows self) with true by (symmetry; apply Z.ltb_lt; lia).
    cbn [andb negb].
    assert (0 <= len s) by (unfold len; lia).
    assert (0 <= (__cols self - len s) / 2 < __cols self).
    { split; [apply Z.div_pos; lia | apply Z.div_lt_upper_bound; lia]. }
    erewrite bind_ok by (apply set_cursor_run; lia).
    rewrite write_string_run, emit_emit, address_emit. reflexivity. }
  split.
  - intros s row self Hrow col. split; [|split].
    + unfold write_center.
      replace (0 <=? row) with true by (symmetry; apply Z.leb_le; lia).
      replace (row <? __rows self) with true by (symmetry; apply Z.ltb_lt; lia).
      reflexivity.
    + intros Hlong.
      assert (Hneg : col < 0) by (apply Z.div_lt_upper_bound; lia).
      split; [exact Hneg|]. unfold write_center.
      replace (0 <=? row) with true by (symmetry; apply Z.leb_le; lia).
      replace (row <? __rows self) with true by (symmetry; apply Z.ltb_lt; lia).
      cbn [andb negb]. fold col.
      destruct (Z_lt_dec row 4).
      * exists (InvalidCursorColumn col). split; [|now right].
        apply bind_raise, set_cursor_bad_col; lia.
      * exists (InvalidCursorRow row). split; [|now left].
        apply bind_raise, set_cursor_bad_row; lia.
    + intros Hr Hs Hc. now apply Hfit.
  - intros self Hcols Hrows.
    rewrite Hfit; rewrite ?Hcols; change (len (py "2")) with 1; try lia.
    reflexivity.
Qed.

(** ** C6: the construction sequence *)

(** C6: construction fails, sending nothing, only when no address is given
    and the bus scan finds no device; otherwise it runs, in this order and
    all as commands, 0x03 three times, 0x02, entry-mode-set with left-to-right
    increment, the display-control byte with display on and cursor and blink
    off, and clear-display, and leaves the flags display on, blink off, cursor
    off. *)
Theorem init_sequence scan display_address rows cols :
  (display_address = None -> scan = [] ->
   __init__ scan display_address rows cols = (Raise NoDeviceFound, None))
  /\ (forall a,
        display_address = Some a \/ (display_address = None /\ head scan = Some a) ->
        __init__ scan display_address rows cols =
        (Ok tt,
         Some (mkLCD a rows cols true false false
                 (flat_map (fun byte => send_byte_trace a byte LCD_COMMAND)
                    [0x03; 0x03; 0x03; 0x02;
                     Z.lor LCD_ENTRYMODESET LCD_ENTRYLEFT;
                     Z.lor LCD_DISPLAYCONTROL LCD_DISPLAYON;
                     LCD_CLEARDISPLAY]))))
  /\ (Z.testbit (Z.lor LCD_DISPLAYCONTROL LCD_DISPLAYON) 2 = true
      /\ Z.testbit (Z.lor LCD_DISPLAYCONTROL LCD_DISPLAYON) 1 = false
      /\ Z.testbit (Z.lor LCD_DISPLAYCONTROL LCD_DISPLAYON) 0 = false).
Proof.
  split; [|split].
  - intros -> ->. reflexivity.
  - intros a [-> | [-> Hscan]].
    + reflexivity.
    + destruct scan as [|device scan]; [discriminate|].
      injection Hscan as ->. reflexivity.
  - repeat split.
Qed.

(** ** C7: blink and cursor *)

(** C7: [blink_on(True)] always leaves the cursor flag (and the blink flag)
    set; a following [blink_off] clears the blink flag and leaves the cursor
    flag set; [blink_off] never changes the cursor flag; and [cursor_off]
    clears the cursor flag without touching the blink flag, so the coupling
    runs from blink to cursor only. *)
Theorem blink_forces_cursor self :
  (fst (blink_on true self) = Ok tt
   /\ __blink_on (snd (blink_on true self)) = true
   /\ __cursor_on (snd (blink_on true self)) = true)
  /\ (fst (blink_off (snd (blink_on true self))) = Ok tt
      /\ __blink_on (snd (blink_off (snd (blink_on true self)))) = false
      /\ __cursor_on (snd (blink_off (snd (blink_on true self)))) = true)
  /\ (fst (blink_off self) = Ok tt
      /\ __cursor_on (snd (blink_off self)) = __cursor_on self)
  /\ (fst (cursor_off self) = Ok tt
      /\ __cursor_on (snd (cursor_off self)) = false
      /\ __blink_on (snd (cursor_off self)) = __blink_on self).
Proof.
  assert (Hupd : forall s, exists es, __update_display_control s = (Ok tt, emit es s)).
  { intros s. eexists. unfold __update_display_control. apply send_byte_run. now left. }
  unfold blink_off, cursor_off, blink_on, cursor_on. cbn zeta.
  repeat match goal with
         | |- context [__update_display_control ?s] =>
             let E := fresh "E" in destruct (Hupd s) as [? E]; rewrite E; clear E
         end.
  cbn. repeat split.
Qed.

(** * The claims on the display of [example.py] *)

(** The text of [example.py] takes rows 0 and 1; row 2 is returned. *)
Lemma write_word_wrap_witness :
  fst (write isspace_ascii (py "...Then, shalt thou count to three.") 0 example_display)
  = Ok 2
  /\ lines (write_plan isspace_ascii 20 4 (py "...Then, shalt thou count to three.") 0)
     = [(0, py "...Then, shalt thou"); (1, py "count to three.")].
Proof.
  destruct (write_word_wrap isspace_ascii (py "...Then, shalt thou count to three.")
              0 example_display) as (Hrun & _).
  - lia.
  - unfold example_display. cbn [__rows]. lia.
  - unfold example_display. cbn [__cols]. lia.
  - split; [rewrite Hrun|]; reflexivity.
Defined.

(** Started below the last row, [write] returns its start row, not the row
    count; started above the first, it raises. *)
Lemma write_start_row_out_of_range :
  write isspace_ascii (py "a") 7 example_display = (Ok 7, example_display)
  /\ __rows example_display = 4
  /\ write isspace_ascii (py "a") (-1) example_display
     = (Raise (InvalidCursorRow (-1)), example_display).
Proof. repeat split. Qed.

Lemma write_splits_long_word_witness :
  write isspace_ascii (py "abcdefghijklmnopqrstuvwxyz0123") 0 example_display =
  (Ok 2,
   emit (set_cursor_trace 0x27 0 0 ++
         write_string_trace 0x27 (py "abcdefghijklmnopqrst") ++
         set_cursor_trace 0x27 1 0 ++
         write_string_trace 0x27 (py "uvwxyz0123") ++
         set_cursor_trace 0x27 2 0) example_display)
  /\ exists w,
       [py "abcdefghijklmnopqrstuvwxyz0123"] !! 0%nat = Some w
       /\ 0 < len (drop 20 w) < len w.
Proof.
  destruct (write_splits_long_word isspace_ascii eq_refl) as (Hstep & Hword).
  split.
  - apply (Hword (py "abcdefghijklmnopqrstuvwxyz0123") example_display);
      [repeat constructor | reflexivity | reflexivity | reflexivity].
  - destruct (Hstep 3%nat [py "abcdefghijklmnopqrstuvwxyz0123"] 0%nat 0%nat 0
                example_display (emit (set_cursor_trace 0x27 0 0) example_display))
      as (w & Hw & _ & _ & _ & _ & _ & Hprogress).
    + unfold example_display. cbn [__rows]. lia.
    + reflexivity.
    + cbn [length]. lia.
    + reflexivity.
    + exists w. split; [exact Hw | exact Hprogress].
Defined.

Lemma init_sequence_witness :
  fst (__init__ [0x27] None 4 20) = Ok tt
  /\ __init__ [] None 4 20 = (Raise NoDeviceFound, None).
Proof.
  destruct (init_sequence [0x27] None 4 20) as (_ & Hok & _).
  destruct (init_sequence [] None 4 20) as (Hfail & _).
  split.
  - rewrite (Hok 0x27) by (right; split; reflexivity). reflexivity.
  - apply Hfail; reflexivity.
Defined.

Lemma write_one_line_witness :
  write isspace_ascii (py "hi") 0 example_display =
  (Ok 1,
   emit (set_cursor_trace 0x27 0 0 ++ write_string_trace 0x27 (py "hi") ++
         set_cursor_trace 0x27 1 0) example_display).
Proof.
  destruct (write_one_line isspace_ascii eq_refl (py "hi") example_display)
    as (Hrun & _).
  - discriminate.
  - reflexivity.
  - vm_compute. discriminate.
  - unfold example_display. cbn [__rows]. lia.
  - exact Hrun.
Defined.

(** [write("hi", 0)] and [clear(); set_cursor(0, 0); write_string("hi")] put
    different bytes on the bus: the second starts with the clear command, the
    first ends with a cursor-set on row 1. *)
Lemma write_is_not_clear_then_write_string :
  let by_write := writes (trace (snd (write isspace_ascii (py "hi") 0 example_display))) in
  let by_hand :=
    writes (trace (snd ((clear ;; set_cursor 0 0 ;; write_string (py "hi"))
                          example_display))) in
  by_hand <> by_write
  /\ take 6 by_hand = [0x08; 0x0c; 0x08; 0x18; 0x1c; 0x18]
  /\ take 6 by_write = [0x88; 0x8c; 0x88; 0x08; 0x0c; 0x08]
  /\ drop 18 by_write = [0xc8; 0xcc; 0xc8; 0x08; 0x0c; 0x08].
Proof. vm_compute. repeat split. discriminate. Qed.

Lemma write_center_column_witness :
  write_center (py "Three, sir!") 1 example_display
  = (set_cursor 1 4 ;; write_string (py "Three, sir!")) example_display
  /\ write_center (py "2") 0 example_display
     = (Ok tt, emit (set_cursor_trace 0x27 0 9 ++ write_string_trace 0x27 (py "2"))
                    example_display)
  /\ exists e, write_center (py "...Then, shalt thou count to three.") 0 example_display
               = (Raise e, example_display).
Proof.
  destruct write_center_column as (Hcol & Htwo).
  split; [|split].
  - destruct (Hcol (py "Three, sir!") 1 example_display) as (Hrun & _).
    + unfold example_display. cbn [__rows]. lia.
    + exact Hrun.
  - apply (Htwo example_display); [reflexivity|].
    unfold example_display. cbn [__rows]. lia.
  - destruct (Hcol (py "...Then, shalt thou count to three.") 0 example_display)
      as (_ & Hlong & _).
    + unfold example_display. cbn [__rows]. lia.
    + destruct Hlong as (_ & e & He & _); [vm_compute; reflexivity|].
      exists e. exact He.
Defined.

Lemma write_parks_cursor_witness :
  write isspace_ascii (py "") 2 example_display
  = (Ok 2, emit (set_cursor_trace 0x27 2 0) example_display).
Proof.
  destruct (write_parks_cursor isspace_ascii (py "") 2 example_display)
    as (_ & Hempty).
  - lia.
  - unfold example_display. cbn [__rows]. lia.
  - unfold example_display. cbn [__cols]. lia.
  - apply Hempty; [constructor|].
    unfold example_display. cbn [__rows]. lia.
Defined.

(** On a display declared with five rows, row 4 is in [0, rows) and
    [write("", 4)] raises: [set_cursor] knows four rows only. *)
Lemma write_empty_on_fifth_row :
  let tall := mkLCD 0x27 5 20 true false false [] in
  0 <= 4 < __rows tall
  /\ write isspace_ascii (py "") 4 tall = (Raise (InvalidCursorRow 4), tall).
Proof. cbn zeta. split; [cbn [__rows]; lia | reflexivity]. Qed.

(** * Further properties of the driver *)

(** ** Character output *)

Lemma delays_app es1 es2 : delays (es1 ++ es2) = delays es1 + delays es2.
Proof.
  induction es1 as [|[us|addr data] es1 IH]; cbn [app delays]; lia.
Qed.

Lemma send_byte_delays addr byte mode : delays (send_byte_trace addr byte mode) = 3600.
Proof. reflexivity. Qed.

(** X1: [write_string] never fails, whatever the code points of the string;
    it leaves everything but the trace alone, puts six bytes on the bus per
    character, all with the RS bit (bit 0) set, and sleeps 3600 microseconds
    per character. *)
Theorem write_string_bus s self :
  write_string s self =
    (Ok tt, emit (write_string_trace (__display_address self) s) self)
  /\ length (writes (write_string_trace (__display_address self) s))
     = (6 * length s)%nat
  /\ Forall (fun w => Z.testbit w 0 = true)
            (writes (write_string_trace (__display_address self) s))
  /\ delays (write_string_trace (__display_address self) s) = 3600 * len s.
Proof.
  split; [apply write_string_run|].
  generalize (__display_address self). intros addr.
  induction s as [|c s (IHlen & IHrs & IHdelay)]; cbn [write_string_trace flat_map].
  - repeat split. constructor.
  - rewrite writes_app, delays_app, length_app, send_byte_delays.
    fold (write_string_trace addr s).
    rewrite IHlen, IHdelay. split; [|split].
    + rewrite send_byte_writes by now right. cbn [length]. lia.
    + apply Forall_app. split; [|exact IHrs].
      rewrite send_byte_writes by now right. cbn zeta.
      repeat constructor;
        rewrite ?frame_pulse_rs, ?frame_rs; reflexivity.
    + unfold len. cbn [length]. lia.
Qed.

(** X2: [write_character] raises, sending nothing, unless it is handed
    exactly one character; a single character is sent as its code point's low
    eight bits, so a code point above 255 shows as code point mod 256. *)
Theorem write_character_single :
  (forall character self,
     length character <> 1%nat ->
     write_character character self = (Raise SingleCharacterExpected, self))
  /\ (forall c self,
        write_character [c] self =
          (Ok tt, emit (send_byte_trace (__display_address self) c LCD_CHARACTER) self)
        /\ write_character [c] self = write_character [c mod 256] self).
Proof.
  split.
  - intros [|c [|c' character]] self H; try reflexivity. now contradiction H.
  - intros c self. unfold write_character, ord.
    rewrite !send_byte_run by now right.
    now rewrite <- send_byte_trace_mod.
Qed.

Lemma write_character_single_witness :
  write_character (py "") example_display = (Raise SingleCharacterExpected, example_display)
  /\ write_character (py "ab") example_display
     = (Raise SingleCharacterExpected, example_display)
  /\ write_character [0x141] example_display = write_character [0x41] example_display.
Proof.
  destruct write_character_single as (Hbad & Hone).
  split; [|split].
  - apply Hbad. discriminate.
  - apply Hbad. discriminate.
  - apply (Hone 0x141 example_display).
Defined.

(** X3: writing a string in two pieces puts on the bus what writing it
    whole does. *)
Theorem write_string_app s t self :
  write_string (s ++ t) self = (write_string s ;; write_string t) self.
Proof.
  erewrite (bind_ok (write_string s)) by apply write_string_run.
  rewrite !write_string_run, emit_emit, address_emit.
  unfold write_string_trace. now rewrite flat_map_app.
Qed.

(** ** The frames of a byte can be read back *)

Lemma nibbles_reassemble value :
  Z.lor (Z.land value 0xf0) (Z.shiftr (Z.land (Z.shiftl value 4) 0xf0) 4)
  = value mod 256.
Proof.
  rewrite low_nibble_shifted, Z.shiftr_shiftl_l by lia.
  change (4 - 4) with 0. rewrite Z.shiftl_0_r, <- Z.land_lor_distr_r.
  change (Z.lor 240 15) with (Z.ones 8). now rewrite Z.land_ones by lia.
Qed.

Lemma send_byte_decode addr mode value :
  mode = LCD_COMMAND \/ mode = LCD_CHARACTER ->
  exists f1 e1 g1 f2 e2 g2,
    writes (send_byte_trace addr value mode) = [f1; e1; g1; f2; e2; g2]
    /\ Z.lor (Z.land f1 0xf0) (Z.shiftr (Z.land f2 0xf0) 4) = value mod 256
    /\ Z.land f1 1 = mode.
Proof.
  intros Hm. do 6 eexists. split; [now apply send_byte_writes|]. split.
  - rewrite !frame_nibble by assumption. apply nibbles_reassemble.
  - rewrite !Z.land_lor_distr_l, <- Z.land_assoc.
    change (Z.land 240 1) with 0. rewrite Z.land_0_r.
    now destruct Hm as [-> | ->].
Qed.

Lemma send_byte_trace_inj addr mode v1 v2 :
  mode = LCD_COMMAND \/ mode = LCD_CHARACTER ->
  0 <= v1 <= 255 -> 0 <= v2 <= 255 ->
  send_byte_trace addr v1 mode = send_byte_trace addr v2 mode -> v1 = v2.
Proof.
  intros Hm H1 H2 E.
  destruct (send_byte_decode addr mode v1 Hm)
    as (f1 & e1 & g1 & f2 & e2 & g2 & Hw1 & Hv1 & _).
  destruct (send_byte_decode addr mode v2 Hm)
    as (f1' & e1' & g1' & f2' & e2' & g2' & Hw2 & Hv2 & _).
  rewrite E, Hw2 in Hw1. injection Hw1 as <- _ _ <- _ _.
  rewrite Hv2 in Hv1. rewrite !Z.mod_small in Hv1 by lia. congruence.
Qed.



(** ** Display control *)

Lemma update_display_control_run self :
  __update_display_control self =
  (Ok tt, emit (send_byte_trace (__display_address self) (control_byte self) LCD_COMMAND)
               self).
Proof.
  unfold __update_display_control. rewrite send_byte_run by now left.
  unfold control_byte.
  now destruct (__display_on self), (__blink_on self), (__cursor_on self).
Qed.

(** X5: [display_on], [cursor_on] and [blink_on] never fail; each sets its
    own flag to the value given ([blink_on(True)] sets the cursor flag too,
    nothing else touches another flag) and then sends one command, the byte
    8 + 4*display + 2*cursor + blink of the flags as they are after the
    assignment; the flags can be read back from bits 2, 1 and 0 of that byte,
    whose bit 3 marks the display-control command. *)
Theorem display_control_commands value self :
  (display_on value self =
     (let self' := set_display_on value self in
      (Ok tt, emit (send_byte_trace (__display_address self) (control_byte self')
                      LCD_COMMAND) self')))
  /\ (cursor_on value self =
        (let self' := set_cursor_on value self in
         (Ok tt, emit (send_byte_trace (__display_address self) (control_byte self')
                         LCD_COMMAND) self')))
  /\ (blink_on value self =
        (let self' := if value then set_cursor_on true (set_blink_on true self)
                      else set_blink_on false self in
         (Ok tt, emit (send_byte_trace (__display_address self) (control_byte self')
                         LCD_COMMAND) self')))
  /\ (8 <= control_byte self <= 15
      /\ Z.testbit (control_byte self) 3 = true
      /\ Z.testbit (control_byte self) 2 = __display_on self
      /\ Z.testbit (control_byte self) 1 = __cursor_on self
      /\ Z.testbit (control_byte self) 0 = __blink_on self).
Proof.
  unfold display_on, cursor_on, blink_on. cbn zeta.
  rewrite !update_display_control_run.
  split; [reflexivity|]. split; [reflexivity|]. split.
  - now destruct value.
  - unfold control_byte.
    destruct (__display_on self), (__cursor_on self), (__blink_on self);
      cbn; repeat split; lia.
Qed.

(** ** Cursor addresses *)

(** X6: on a display of at most 20 columns the cursor command tells the
    positions apart: two valid positions for which [set_cursor] does the same
    are the same position, and the command byte has bit 7 (set DDRAM address)
    set.  The bound is tight: with more than 20 columns, row 0 column 20 and
    row 2 column 0 get the same command. *)
Theorem set_cursor_distinct self :
  (forall row col row' col',
     __cols self <= 20 ->
     0 <= row < 4 -> 0 <= col < __cols self ->
     0 <= row' < 4 -> 0 <= col' < __cols self ->
     set_cursor row col self = set_cursor row' col' self ->
     row = row' /\ col = col')
  /\ (forall row col,
        __cols self <= 20 -> 0 <= row < 4 -> 0 <= col < __cols self ->
        Z.testbit (Z.lor LCD_SET_DDRAM col + ddram_offset row) 7 = true)
  /\ (20 < __cols self -> set_cursor 0 20 self = set_cursor 2 0 self).
Proof.
  assert (Hoff : forall row, 0 <= row < 4 ->
            (row = 0 /\ ddram_offset row = 0) \/ (row = 1 /\ ddram_offset row = 64)
            \/ (row = 2 /\ ddram_offset row = 20) \/ (row = 3 /\ ddram_offset row = 84)).
  { intros row H. assert (E : row = 0 \/ row = 1 \/ row = 2 \/ row = 3) by lia.
    destruct E as [-> | [-> | [-> | ->]]]; cbn; tauto. }
  assert (Hval : forall row col, __cols self <= 20 -> 0 <= row < 4 ->
            0 <= col < __cols self ->
            Z.lor LCD_SET_DDRAM col + ddram_offset row = 128 + col + ddram_offset row).
  { intros row col Hc Hr Hcol. change LCD_SET_DDRAM with 128.
    rewrite lor_128 by lia. reflexivity. }
  split; [|split].
  - intros row col row' col' Hcols Hr Hc Hr' Hc' E.
    rewrite !set_cursor_run in E by assumption.
    injection E as E. apply app_inv_head in E. unfold set_cursor_trace in E.
    apply send_byte_trace_inj in E; [| now left | |].
    + rewrite !Hval in E by assumption.
      destruct (Hoff row Hr) as [[? ?]|[[? ?]|[[? ?]|[? ?]]]],
               (Hoff row' Hr') as [[? ?]|[[? ?]|[[? ?]|[? ?]]]]; lia.
    + rewrite Hval by assumption.
      destruct (Hoff row Hr) as [[? ?]|[[? ?]|[[? ?]|[? ?]]]]; lia.
    + rewrite Hval by assumption.
      destruct (Hoff row' Hr') as [[? ?]|[[? ?]|[[? ?]|[? ?]]]]; lia.
  - intros row col Hcols Hr Hc. rewrite Hval by assumption.
    replace (128 + col + ddram_offset row) with (Z.lor 128 (col + ddram_offset row)).
    + rewrite Z.lor_spec. reflexivity.
    + rewrite lor_128; [lia|].
      destruct (Hoff row Hr) as [[? ?]|[[? ?]|[[? ?]|[? ?]]]]; lia.
  - intros Hcols. rewrite !set_cursor_run by lia. reflexivity.
Qed.

Lemma set_cursor_distinct_witness :
  (set_cursor 1 0 example_display = set_cursor 2 19 example_display ->
   1 = 2 /\ 0 = 19)
  /\ set_cursor 0 20 (mkLCD 0x27 4 40 true false false [])
     = set_cursor 2 0 (mkLCD 0x27 4 40 true false false []).
Proof.
  split.
  - apply (proj1 (set_cursor_distinct example_display));
      unfold example_display; cbn [__cols]; lia.
  - apply (proj2 (proj2 (set_cursor_distinct (mkLCD 0x27 4 40 true false false [])))).
    cbn [__cols]. lia.
Defined.

(** ** Aligned output *)

(** X7: [write_center], [write_left] and [write_right] check the row against
    the rows of the display first: for a row outside [0, rows) each raises,
    nothing sent. *)
Theorem aligned_row_guard s row self :
  ~ 0 <= row < __rows self ->
  write_center s row self = (Raise InvalidRow, self)
  /\ write_left s row self = (Raise InvalidRow, self)
  /\ write_right s row self = (Raise InvalidRow, self).
Proof.
  intros Hrow. unfold write_center, write_left, write_right.
  destruct (0 <=? row) eqn:E1, (row <? __rows self) eqn:E2;
    try (repeat split; reflexivity).
  apply Z.leb_le in E1. apply Z.ltb_lt in E2. lia.
Qed.

Lemma aligned_row_guard_witness :
  write_left (py "1") 4 example_display = (Raise InvalidRow, example_display).
Proof.
  apply (aligned_row_guard (py "1") 4 example_display).
  unfold example_display. cbn [__rows]. lia.
Defined.

(** X8: [write_left] sets the cursor to column 0 and writes the string
    whatever its length: it never compares the length with the columns of the
    display.  On a display declared with more than four rows, a row from 4 on
    passes the row check and then fails in [set_cursor], nothing sent. *)
Theorem write_left_run s row self :
  0 <= row < __rows self ->
  (row < 4 -> 0 < __cols self ->
   write_left s row self =
   (Ok tt, emit (set_cursor_trace (__display_address self) row 0 ++
                 write_string_trace (__display_address self) s) self))
  /\ (4 <= row -> write_left s row self = (Raise (InvalidCursorRow row), self))
  /\ (row < 4 -> __cols self <= 0 ->
      write_left s row self = (Raise (InvalidCursorColumn 0), self)).
Proof.
  intros Hrow. unfold write_left.
  replace (0 <=? row) with true by (symmetry; apply Z.leb_le; lia).
  replace (row <? __rows self) with true by (symmetry; apply Z.ltb_lt; lia).
  cbn [andb negb]. split; [|split].
  - intros Hr Hc. erewrite bind_ok by (apply set_cursor_run; lia).
    now rewrite write_string_run, emit_emit, address_emit.
  - intros Hr. apply bind_raise, set_cursor_bad_row. lia.
  - intros Hr Hc. apply bind_raise, set_cursor_bad_col; lia.
Qed.

Lemma write_left_run_witness :
  write_left (py "...Then, shalt thou count to three.") 0 example_display =
  (Ok tt, emit (set_cursor_trace 0x27 0 0 ++
                write_string_trace 0x27 (py "...Then, shalt thou count to three."))
               example_display)
  /\ write_left (py "1") 4 (mkLCD 0x27 5 20 true false false [])
     = (Raise (InvalidCursorRow 4), mkLCD 0x27 5 20 true false false []).
Proof.
  split.
  - apply (write_left_run (py "...Then, shalt thou count to three.") 0 example_display);
      unfold example_display; cbn [__rows __cols]; lia.
  - apply (write_left_run (py "1") 4 (mkLCD 0x27 5 20 true false false []));
      cbn [__rows]; lia.
Defined.

(** X9: [write_right] sets the cursor to column cols - len(s), so that a
    string of 1 to cols characters ends on the last column; a string longer
    than the display is wide raises in [set_cursor] with nothing sent, and so
    does the empty string, whose column would be cols itself. *)
Theorem write_right_run s row self :
  0 <= row < __rows self -> row < 4 ->
  (0 < len s <= __cols self ->
   write_right s row self =
   (Ok tt, emit (set_cursor_trace (__display_address self) row (__cols self - len s) ++
                 write_string_trace (__display_address self) s) self)
   /\ (__cols self - len s) + len s = __cols self)
  /\ (__cols self < len s \/ s = [] ->
      write_right s row self =
      (Raise (InvalidCursorColumn (__cols self - len s)), self)).
Proof.
  intros Hrow Hr. unfold write_right.
  replace (0 <=? row) with true by (symmetry; apply Z.leb_le; lia).
  replace (row <? __rows self) with true by (symmetry; apply Z.ltb_lt; lia).
  cbn [andb negb]. split.
  - intros Hs. split; [|lia].
    erewrite bind_ok by (apply set_cursor_run; lia).
    now rewrite write_string_run, emit_emit, address_emit.
  - intros Hs. apply bind_raise, set_cursor_bad_col; [lia|].
    destruct Hs as [Hs | ->]; [lia|]. change (len (@nil Z)) with 0. lia.
Qed.

Lemma write_right_run_witness :
  write_right (py "5") 0 example_display =
  (Ok tt, emit (set_cursor_trace 0x27 0 19 ++ write_string_trace 0x27 (py "5"))
               example_display)
  /\ write_right (py "") 0 example_display
     = (Raise (InvalidCursorColumn 20), example_display).
Proof.
  destruct (write_right_run (py "5") 0 example_display) as (Hfits & _);
    [unfold example_display; cbn [__rows]; lia | lia |].
  destruct (write_right_run (py "") 0 example_display) as (_ & Hempty);
    [unfold example_display; cbn [__rows]; lia | lia |].
  split.
  - apply Hfits. change (len (py "5")) with 1.
    unfold example_display. cbn [__cols]. lia.
  - apply Hempty. now right.
Defined.

(** X10: [write_center] of a string that fits leaves as many blank columns
    on its left as on its right, or one fewer: with c the column it sets, the
    text ends within the display and c <= cols - len(s) - c <= c + 1. *)
Theorem write_center_margins s row self :
  0 <= row < __rows self -> row < 4 ->
  len s <= __cols self -> 0 < __cols self ->
  exists c,
    write_center s row self =
    (Ok tt, emit (set_cursor_trace (__display_address self) row c ++
                  write_string_trace (__display_address self) s) self)
    /\ 0 <= c /\ c + len s <= __cols self
    /\ c <= __cols self - len s - c <= c + 1.
Proof.
  intros Hrow Hr Hs Hc. exists ((__cols self - len s) / 2).
  assert (0 <= len s) by (unfold len; lia).
  pose proof (Z.div_mod (__cols self - len s) 2 ltac:(lia)) as Hdiv.
  pose proof (Z.mod_pos_bound (__cols self - len s) 2 ltac:(lia)) as Hmod.
  split; [|lia].
  unfold write_center.
  replace (0 <=? row) with true by (symmetry; apply Z.leb_le; lia).
  replace (row <? __rows self) with true by (symmetry; apply Z.ltb_lt; lia).
  cbn [andb negb].
  erewrite bind_ok by (apply set_cursor_run; lia).
  now rewrite write_string_run, emit_emit, address_emit.
Qed.

Lemma write_center_margins_witness :
  exists c,
    write_center (py "Three, sir!") 1 example_display =
    (Ok tt, emit (set_cursor_trace 0x27 1 c ++
                  write_string_trace 0x27 (py "Three, sir!")) example_display)
    /\ c <= 20 - 11 - c <= c + 1.
Proof.
  destruct (write_center_margins (py "Three, sir!") 1 example_display)
    as (c & Hrun & _ & _ & Hmargin).
  - unfold example_display. cbn [__rows]. lia.
  - lia.
  - vm_compute. discriminate.
  - unfold example_display. cbn [__cols]. lia.
  - exists c. split; [exact Hrun | exact Hmargin].
Defined.

(** ** More on the word wrap *)

Lemma frame_good x mode :
  mode = LCD_COMMAND \/ mode = LCD_CHARACTER ->
  let frame := Z.lor (Z.lor mode (Z.land x 0xf0)) (Z.shiftl 1 3) in
  good_frame frame /\ good_frame (Z.lor frame LCD_ENABLE_BIT).
Proof.
  intros Hm frame.
  assert (Hrw : Z.testbit frame 1 = false).
  { unfold frame. rewrite !Z.lor_spec, Z.land_spec.
    change (Z.testbit 240 1) with false.
    rewrite andb_false_r. now destruct Hm as [-> | ->]. }
  assert (Hb : is_byte frame).
  { unfold frame. apply is_byte_lor; [apply is_byte_lor|]; auto with bytes. }
  split; (split; [apply is_byte_range; auto with bytes|]); split.
  - now apply frame_backlight.
  - exact Hrw.
  - now apply frame_pulse_backlight.
  - rewrite Z.lor_spec, Hrw. reflexivity.
Qed.

Lemma send_byte_trace_good addr byte mode :
  mode = LCD_COMMAND \/ mode = LCD_CHARACTER ->
  Forall good_frame (writes (send_byte_trace addr byte mode))
  /\ length (writes (send_byte_trace addr byte mode)) = 6%nat.
Proof.
  intros Hm. rewrite send_byte_writes by assumption. cbn zeta.
  split; [|reflexivity].
  destruct (frame_good byte mode Hm) as (H1 & H1').
  destruct (frame_good (Z.shiftl byte 4) mode Hm) as (H2 & H2').
  repeat (constructor; [assumption|]). constructor.
Qed.

Lemma bus_ok_refl self : bus_ok self self.
Proof. exists [], 0%nat. rewrite emit_nil. repeat split. constructor. Qed.

Lemma bus_ok_trans self1 self2 self3 :
  bus_ok self1 self2 -> bus_ok self2 self3 -> bus_ok self1 self3.
Proof.
  intros (es1 & n1 & -> & Hg1 & Hl1) (es2 & n2 & -> & Hg2 & Hl2).
  exists (es1 ++ es2), (n1 + n2)%nat. rewrite emit_emit, writes_app, length_app.
  split; [reflexivity|]. split; [now apply Forall_app | lia].
Qed.

Lemma bus_ok_send_byte addr byte mode self :
  mode = LCD_COMMAND \/ mode = LCD_CHARACTER ->
  bus_ok self (emit (send_byte_trace addr byte mode) self).
Proof.
  intros Hm. exists (send_byte_trace addr byte mode), 1%nat.
  destruct (send_byte_trace_good addr byte mode Hm) as (Hg & Hl).
  now rewrite Hl.
Qed.

Lemma bus_ok_set_cursor row col self : bus_ok self (snd (set_cursor row col self)).
Proof.
  destruct (set_cursor_outcome row col self) as [[e ->] | ->]; cbn [snd].
  - apply bus_ok_refl.
  - apply bus_ok_send_byte. now left.
Qed.

Lemma bus_ok_write_string s self : bus_ok self (snd (write_string s self)).
Proof.
  rewrite write_string_run. cbn [snd]. generalize (__display_address self).
  intros addr. revert self.
  induction s as [|c s IH]; intros self; cbn [write_string_trace flat_map].
  - rewrite emit_nil. apply bus_ok_refl.
  - rewrite <- emit_emit. eapply bus_ok_trans; [|apply IH].
    apply bus_ok_send_byte. now right.
Qed.

(** Running [k] after a step that kept the bus discipline keeps it. *)
Lemma bus_ok_bind {A B} (m : M A) (k : A -> M B) self :
  bus_ok self (snd (m self)) ->
  (forall a self', bus_ok self' (snd (k a self'))) ->
  bus_ok self (snd (bind m k self)).
Proof.
  intros Hm Hk. unfold bind. destruct (m self) as [[a | e |] self']; cbn [snd] in *.
  - eapply bus_ok_trans; [exact Hm | apply Hk].
  - exact Hm.
  - exact Hm.
Qed.

Section MoreLayout.

Variable isspace : Z -> bool.

Lemma bus_ok_write_loop : forall fuel words idx row self,
  bus_ok self (snd (write_loop isspace fuel words idx row self)).
Proof.
  induction fuel as [|fuel IH]; intros words idx row self; cbn [write_loop];
    destruct (row <? __rows self); try apply bus_ok_refl.
  destruct (pack_loop (length words) (__cols self) words idx [])
    as [[idx' line]|]; [|apply bus_ok_refl].
  apply bus_ok_bind; [apply bus_ok_set_cursor|]. intros _ self1.
  destruct (0 <? len line).
  - apply bus_ok_bind; [apply bus_ok_write_string | intros; apply IH].
  - destruct (idx' <? length words)%nat; [|apply bus_ok_refl].
    apply bus_ok_bind; [apply bus_ok_write_string | intros; apply IH].
Qed.

(** X11: whatever the text, the start row and the geometry, and whether it
    returns or raises, [write] changes nothing of the object but the trace,
    and what it adds to the bus is whole bytes only (six writes each), every
    write a byte in 0..255 with the backlight bit set and the R/W bit clear.
    The same holds of [set_cursor], [write_string] and the three aligned
    writers. *)
Theorem write_bus_discipline text s row col self :
  bus_ok self (snd (write isspace text row self))
  /\ bus_ok self (snd (set_cursor row col self))
  /\ bus_ok self (snd (write_string s self))
  /\ bus_ok self (snd (write_center s row self))
  /\ bus_ok self (snd (write_left s row self))
  /\ bus_ok self (snd (write_right s row self)).
Proof.
  split; [apply bus_ok_write_loop|].
  split; [apply bus_ok_set_cursor|].
  split; [apply bus_ok_write_string|].
  unfold write_center, write_left, write_right.
  destruct (negb ((0 <=? row) && (row <? __rows self)));
    repeat split; try apply bus_ok_refl;
    (apply bus_ok_bind; [apply bus_ok_set_cursor | intros; apply bus_ok_write_string]).
Qed.

(** X12: where [write] starts decides how it ends before any text is looked
    at: from a row at or past the row count it returns that row and does
    nothing; from a row below the row count that [set_cursor] does not accept
    it raises with nothing sent; and on a display declared without columns
    it raises on the column. *)
Theorem write_start_row text start_row self :
  (__rows self <= start_row ->
   write isspace text start_row self = (Ok start_row, self))
  /\ (start_row < __rows self -> ~ 0 <= start_row < 4 ->
      write isspace text start_row self = (Raise (InvalidCursorRow start_row), self))
  /\ (start_row < __rows self -> 0 <= start_row < 4 -> __cols self <= 0 ->
      write isspace text start_row self = (Raise (InvalidCursorColumn 0), self)).
Proof.
  unfold write. split; [|split].
  - intros H. replace (Z.to_nat (__rows self - start_row)) with 0%nat by lia.
    cbn [write_loop].
    now replace (start_row <? __rows self) with false by (symmetry; apply Z.ltb_ge; lia).
  - intros Hlt Hbad.
    replace (Z.to_nat (__rows self - start_row))
      with (S (Z.to_nat (__rows self - (start_row + 1)))) by lia.
    cbn [write_loop].
    replace (start_row <? __rows self) with true by (symmetry; apply Z.ltb_lt; lia).
    destruct (pack_loop_pack (__cols self) (split isspace text)
                (length (split isspace text)) (split isspace text) 0 [])
      as (k & -> & _); [apply drop_0 | lia |].
    apply bind_raise, set_cursor_bad_row. exact Hbad.
  - intros Hlt Hrow Hcols.
    replace (Z.to_nat (__rows self - start_row))
      with (S (Z.to_nat (__rows self - (start_row + 1)))) by lia.
    cbn [write_loop].
    replace (start_row <? __rows self) with true by (symmetry; apply Z.ltb_lt; lia).
    destruct (pack_loop_pack (__cols self) (split isspace text)
                (length (split isspace text)) (split isspace text) 0 [])
      as (k & -> & _); [apply drop_0 | lia |].
    apply bind_raise, set_cursor_bad_col; [exact Hrow | lia].
Qed.

End MoreLayout.

Lemma write_start_row_witness :
  write isspace_ascii (py "a b") 4 example_display = (Ok 4, example_display)
  /\ write isspace_ascii (py "a b") (-2) example_display
     = (Raise (InvalidCursorRow (-2)), example_display)
  /\ write isspace_ascii (py "a b") 0 (mkLCD 0x27 4 0 true false false [])
     = (Raise (InvalidCursorColumn 0), mkLCD 0x27 4 0 true false false []).
Proof.
  split; [|split].
  - apply (write_start_row isspace_ascii (py "a b") 4 example_display).
    unfold example_display. cbn [__rows]. lia.
  - apply (write_start_row isspace_ascii (py "a b") (-2) example_display);
      [unfold example_display; cbn [__rows]; lia | lia].
  - apply (write_start_row isspace_ascii (py "a b") 0
             (mkLCD 0x27 4 0 true false false []));
      cbn [__rows __cols]; lia.
Defined.

(** ** What the word wrap writes *)

Section WrappedText.

Variable isspace : Z -> bool.
Hypothesis isspace_space : isspace 32 = true.

Lemma strip_spaces_app a b :
  strip_spaces isspace (a ++ b) = strip_spaces isspace a ++ strip_spaces isspace b.
Proof. unfold strip_spaces. apply List.filter_app. Qed.

Lemma strip_spaces_word w :
  Forall (fun c => isspace c = false) w -> strip_spaces isspace w = w.
Proof.
  induction 1 as [|c w Hc _ IH]; [reflexivity|].
  unfold strip_spaces in *. cbn [List.filter]. now rewrite Hc, IH.
Qed.

Lemma strip_spaces_rstrip s :
  strip_spaces isspace (rstrip isspace s) = strip_spaces isspace s.
Proof.
  induction s as [|c s IH]; [reflexivity|]. cbn [rstrip].
  destruct (rstrip isspace s) as [|a t].
  - unfold strip_spaces in *. cbn [List.filter] in *. rewrite <- IH.
    destruct (isspace c) eqn:Hc; cbn [List.filter negb]; rewrite ?Hc; reflexivity.
  - unfold strip_spaces in *. cbn [List.filter] in *. now rewrite IH.
Qed.

Lemma length_rstrip s : (length (rstrip isspace s) <= length s)%nat.
Proof.
  induction s as [|c s IH]; [reflexivity|]. cbn [rstrip].
  destruct (rstrip isspace s) as [|a t].
  - destruct (isspace c); cbn [length]; lia.
  - cbn [length] in *. lia.
Qed.

Lemma concat_split_words : forall s word,
  concat (split_words isspace word s) = word ++ strip_spaces isspace s.
Proof.
  induction s as [|c s IH]; intros word; cbn [split_words].
  - destruct word; cbn [concat app strip_spaces List.filter]; now rewrite ?app_nil_r.
  - unfold strip_spaces in *. cbn [List.filter]. destruct (isspace c); cbn [negb].
    + destruct word as [|a word]; [apply IH|].
      cbn [concat]. now rewrite IH.
    + rewrite IH. now rewrite <- app_assoc.
Qed.

Lemma strip_spaces_packed taken :
  Forall (fun w => w <> [] /\ Forall (fun c => isspace c = false) w) taken ->
  strip_spaces isspace (concat (map (fun w => w ++ py " ") taken)) = concat taken.
Proof.
  induction 1 as [|w taken [_ Hw] _ IH]; [reflexivity|].
  cbn [map concat]. rewrite !strip_spaces_app, IH, strip_spaces_word by assumption.
  assert (Hsp : strip_spaces isspace (py " ") = []).
  { change (py " ") with [32]. unfold strip_spaces. cbn [List.filter].
    now rewrite isspace_space. }
  now rewrite Hsp, app_nil_r.
Qed.

(** A packed line is empty or ends in the space that follows its last word,
    and without that space it is at most [cols] long. *)
Lemma pack_line_fits cols : forall ws line,
  (line = [] \/ exists X, line = X ++ [32] /\ len X <= cols) ->
  fst (pack cols line ws) = []
  \/ exists X, fst (pack cols line ws) = X ++ [32] /\ len X <= cols.
Proof.
  induction ws as [|w ws IH]; intros line Hline; cbn [pack]; [exact Hline|].
  destruct (len line + len w <=? cols) eqn:Hfit; [|exact Hline].
  apply IH. right. exists (line ++ w). split; [reflexivity|].
  apply Z.leb_le in Hfit. unfold len in *. rewrite length_app. lia.
Qed.

(** Every row of a plan gets between one and [cols] characters, and the
    plan neither loses nor reorders a character of its words. *)
Lemma layout_text cols : forall n row ws,
  1 <= cols ->
  Forall (fun w => w <> [] /\ Forall (fun c => isspace c = false) w) ws ->
  let p := layout isspace cols n row ws in
  Forall (fun l => 1 <= len (snd l) <= cols) (lines p)
  /\ strip_spaces isspace (concat (map snd (lines p))) ++ concat (dropped p)
     = concat ws.
Proof.
  induction n as [|n IH]; intros row ws Hcols Hws; cbn [layout].
  - cbn. split; [constructor | reflexivity].
  - destruct (pack_greedy cols ws []) as (taken & Hsplit & Hline & Hstop).
    pose proof (pack_line_fits cols ws [] (or_introl eq_refl)) as Hfit.
    destruct (pack cols [] ws) as [line rest]. cbn [fst snd app] in *.
    destruct Hfit as [Hfit | Hfit].
    + (* nothing fits: no word left, or a word wider than the display *)
      rewrite Hfit in Hline, Hstop |- *. clear Hfit.
      assert (taken = []) as ->.
      { destruct taken as [|w taken]; [reflexivity|].
        cbn [map concat] in Hline. symmetry in Hline.
        apply app_eq_nil in Hline as [Hline _].
        apply app_eq_nil in Hline as [_ Hline]. discriminate. }
      cbn [app] in Hsplit. subst ws.
      destruct rest as [|w rest].
      * cbn. split; [constructor | reflexivity].
      * apply Forall_cons in Hws as [[Hne Hw] Hrest].
        change (len (@nil Z)) with 0 in Hstop.
        assert (Hlen : (Z.to_nat cols < length w)%nat) by (unfold len in Hstop; lia).
        destruct (IH (row + 1) (drop (Z.to_nat cols) w :: rest) Hcols) as (Hfits & Htext).
        { constructor; [|assumption]. split; [|now apply Forall_drop].
          intros E. apply (f_equal length) in E. rewrite length_drop in E.
          cbn in E. lia. }
        cbn [add_line lines dropped map concat snd]. split.
        -- constructor; [|exact Hfits]. cbn [snd]. unfold len.
           rewrite length_take. lia.
        -- rewrite strip_spaces_app, <- app_assoc, Htext.
           rewrite strip_spaces_word by now apply Forall_take.
           cbn [concat]. now rewrite app_assoc, take_drop.
    + destruct Hfit as (X & -> & HX).
      rewrite Hsplit in Hws. apply Forall_app in Hws as [Htaken Hrest].
      destruct (IH (row + 1) rest Hcols Hrest) as (Hfits & Htext).
      assert (Hstrip : strip_spaces isspace (rstrip isspace (X ++ [32])) = concat taken).
      { rewrite strip_spaces_rstrip, Hline. now apply strip_spaces_packed. }
      assert (Htaken_ne : concat taken <> []).
      { destruct taken as [|w taken].
        - cbn in Hline. now destruct X.
        - apply Forall_cons in Htaken as [[Hne _] _]. cbn [concat].
          intros E. apply app_eq_nil in E as [E _]. contradiction. }
      assert (Hlen : 1 <= len (rstrip isspace (X ++ [32])) <= cols).
      { split.
        - destruct (rstrip isspace (X ++ [32])) eqn:Er;
            [|unfold len; cbn [length]; lia].
          cbn in Hstrip. congruence.
        - rewrite rstrip_app_space by assumption.
          pose proof (length_rstrip X). unfold len in *. lia. }
      destruct (X ++ [32]) as [|c line] eqn:E; [now destruct X|].
      rewrite ?E in Hlen, Hstrip.
      cbn [add_line lines dropped map concat snd]. split.
      * constructor; [exact Hlen | exact Hfits].
      * rewrite strip_spaces_app, <- app_assoc, Htext, Hstrip, Hsplit.
        now rewrite concat_app.
Qed.

(** X13: on a display of at most four rows and at least one column, started
    from a row not below 0, [write] puts on every row it writes at least one
    and at most cols characters: no line it sends is empty or wider than the
    display. *)
Theorem write_lines_fit text start_row self :
  0 <= start_row -> __rows self <= 4 -> 1 <= __cols self ->
  let p := write_plan isspace (__cols self) (__rows self) text start_row in
  write isspace text start_row self =
    (Ok (next_row p), emit (render (__display_address self) p) self)
  /\ Forall (fun l => 1 <= len (snd l) <= __cols self) (lines p).
Proof.
  intros Hstart Hrows Hcols p. split; [now apply write_run|].
  apply layout_text; [assumption|]. apply split_words_ok. constructor.
Qed.

(** X14: under the same conditions [write] neither loses nor reorders text:
    the characters of the text that are not whitespace are, in order, those
    of the rows written followed by those of the words dropped when the rows
    ran out; when [write] returns a row below the row count the rows written
    hold them all. *)
Theorem write_keeps_text text start_row self :
  0 <= start_row -> __rows self <= 4 -> 1 <= __cols self ->
  let p := write_plan isspace (__cols self) (__rows self) text start_row in
  write isspace text start_row self =
    (Ok (next_row p), emit (render (__display_address self) p) self)
  /\ strip_spaces isspace text
     = strip_spaces isspace (concat (map snd (lines p))) ++ concat (dropped p)
  /\ (next_row p < __rows self ->
      strip_spaces isspace text = strip_spaces isspace (concat (map snd (lines p)))).
Proof.
  intros Hstart Hrows Hcols p. split; [now apply write_run|].
  assert (Htext : strip_spaces isspace text
     = strip_spaces isspace (concat (map snd (lines p))) ++ concat (dropped p)).
  { destruct (layout_text (__cols self) (Z.to_nat (__rows self - start_row))
                start_row (split isspace text) Hcols) as (_ & H).
    - apply split_words_ok. constructor.
    - fold (write_plan isspace (__cols self) (__rows self) text start_row) in H.
      fold p in H. rewrite H. unfold split. now rewrite concat_split_words. }
  split; [exact Htext|]. intros Hnext.
  destruct (layout_shape isspace (__cols self) (Z.to_nat (__rows self - start_row))
              start_row (split isspace text)) as (_ & Hn & Hend).
  fold (write_plan isspace (__cols self) (__rows self) text start_row) in Hn, Hend.
  fold p in Hn, Hend. unfold len in Hn.
  destruct Hend as [(_ & Hdropped & _) | (_ & Hfull)]; [|lia].
  rewrite Htext, Hdropped. cbn [concat]. now rewrite app_nil_r.
Qed.

End WrappedText.

Lemma write_lines_fit_witness :
  Forall (fun l => 1 <= len (snd l) <= 20)
    (lines (write_plan isspace_ascii 20 4
              (py "supercalifragilisticexpialidocious is  quite a word") 1)).
Proof.
  apply (write_lines_fit isspace_ascii eq_refl
           (py "supercalifragilisticexpialidocious is  quite a word") 1 example_display).
  - lia.
  - unfold example_display. cbn [__rows]. lia.
  - unfold example_display. cbn [__cols]. lia.
Defined.

Lemma write_keeps_text_witness :
  strip_spaces isspace_ascii (py "  Three,   sir! ")
  = strip_spaces isspace_ascii
      (concat (map snd (lines (write_plan isspace_ascii 20 4 (py "  Three,   sir! ") 0)))).
Proof.
  destruct (write_keeps_text isspace_ascii eq_refl (py "  Three,   sir! ") 0
              example_display) as (_ & _ & Hall).
  - lia.
  - unfold example_display. cbn [__rows]. lia.
  - unfold example_display. cbn [__cols]. lia.
  - apply Hall. vm_compute. reflexivity.
Defined.
